(** * A2A: task store, task managers, JSON-RPC boundary, discovery, routing

    A shallow embedding of the task-lifecycle and routing core of the A2A
    repository:

    - [models/task.py], [models/agent.py]         : the records below;
    - [server/task_manager.py]                    : [upsert_task], [on_get_task];
    - [agents/*/task_manager.py]                  : the concrete [on_send_task];
    - [server/server.py]                          : [_handle_request];
    - [utilities/discovery.py]                    : [list_agent_cards];
    - [utilities/rpc_logger.py]                   : [log_interaction];
    - [agents/host_agent/orchestrator.py]         : [_delegate_task].

    Python objects that are mutated through several names (a [Task] kept in
    the manager's dictionary and returned to the caller) live in an object
    store addressed by locations; a Python exception is the [Raise] outcome
    of a computation, and a state change made before the exception stays. *)

From Stdlib Require Import ZArith Ascii String.
From stdpp Require Import gmap strings list fin_maps.

Local Open Scope string_scope.

(** ** Exceptions and outcomes *)

Inductive Exception : Type :=
  | ValueError (msg : string)
  | IndexError (msg : string)
  | KeyError (msg : string)
  | NotImplementedError (msg : string)
  | TypeError (msg : string)
  | OSError (msg : string)
  | ValidationError (msg : string)
  | HTTPError (msg : string).

(** [str(e)] *)
Definition str (e : Exception) : string :=
  match e with
  | ValueError m | IndexError m | KeyError m | NotImplementedError m | TypeError m
  | OSError m | ValidationError m | HTTPError m => m
  end.

Inductive outcome (A : Type) : Type :=
  | Ok (a : A)
  | Raise (e : Exception).
Arguments Ok {A} a.
Arguments Raise {A} e.

(** Computations over a state [S] that may raise. *)
Definition M (S A : Type) : Type := S -> outcome A * S.

Definition ret {S A} (a : A) : M S A := fun s => (Ok a, s).
Definition raise {S A} (e : Exception) : M S A := fun s => (Raise e, s).
Definition bind {S A B} (m : M S A) (k : A -> M S B) : M S B :=
  fun s => match m s with
           | (Ok a, s') => k a s'
           | (Raise e, s') => (Raise e, s')
           end.
Definition get_state {S} : M S S := fun s => (Ok s, s).
Definition put_state {S} (s : S) : M S unit := fun _ => (Ok tt, s).
Definition lift {S A} (o : outcome A) : M S A := fun s => (o, s).

(** [try: m except Exception as e: h e] *)
Definition try_except {S A} (m : M S A) (h : Exception -> M S A) : M S A :=
  fun s => match m s with
           | (Ok a, s') => (Ok a, s')
           | (Raise e, s') => h e s'
           end.

Declare Scope py_scope.
Delimit Scope py_scope with py.
Notation "'do' x <- m ;; k" := (bind m (fun x => k))
  (at level 10, x name, m at level 99, k at level 200) : py_scope.
Notation "m1 ;;; m2" := (bind m1 (fun _ => m2))
  (at level 100, right associativity) : py_scope.
Local Open Scope py_scope.

(** ** models/task.py *)

Definition datetime := Z.

Module TextPart.
(** [type] is the literal ["text"]. *)
Record t := mk { text : string }.
Definition type (_ : t) : string := "text".
End TextPart.

Inductive Role := user | agent.

Module Message.
Record t := mk { role : Role; parts : list TextPart.t }.
End Message.

Module TaskStatus.
Record t := mk { state : string; timestamp : datetime }.
End TaskStatus.

Module Task.
Record t := mk { id : string; status : TaskStatus.t; history : list Message.t }.
End Task.

(** [dict[str, Any] | None]; the values are kept as their JSON text. *)
Definition Metadata := option (list (string * string)).

Module TaskQueryParams.
(** [TaskIdParams] extended with [historyLength]. *)
Record t := mk { id : string; metadata : Metadata; historyLength : option Z }.
End TaskQueryParams.

Module TaskSendParams.
Record t := mk {
  id : string;
  sessionId : string;
  message : Message.t;
  historyLength : option Z;
  metadata : Metadata }.
End TaskSendParams.

Inductive TaskState :=
  | SUBMITTED | WORKING | INPUT_REQUIRED | COMPLETED | CANCELED | FAILED | UNKNOWN.

(** The value of a [TaskState] member: [TaskStatus.state] is a [str]. *)
Definition TaskState_value (s : TaskState) : string :=
  match s with
  | SUBMITTED => "submitted"
  | WORKING => "working"
  | INPUT_REQUIRED => "input-required"
  | COMPLETED => "completed"
  | CANCELED => "canceled"
  | FAILED => "failed"
  | UNKNOWN => "unknown"
  end.

(** ** JSON-RPC envelopes

    Modelled from the spec: the envelope classes of [models/request.py] and
    [models/json_rpc.py], which are not among the sources.  A request is
    [{id, params}], a response is [{id, result | error}], an error is
    [{code, message}] with an integer [code] and a [message], both
    required; these are the fields the managers and the server read and
    write. *)

Inductive RequestId := IdStr (s : string) | IdInt (n : Z).

Module JSONRPCError.
Record t := mk { code : Z; message : string }.
End JSONRPCError.

(** A dictionary given where an error is expected, as [on_get_task] gives
    [{"message": "Task not found"}]: the entries it has. *)
Module ErrorDict.
Record t := mk { code : option Z; message : option string }.
End ErrorDict.

(** Modelled from the spec: the validation of such a dictionary against
    the error class when the response is built.  [code] and [message] are
    required; a dictionary without one of them is refused with a
    validation error. *)
Definition JSONRPCError_validate (d : ErrorDict.t) : outcome JSONRPCError.t :=
  match ErrorDict.code d, ErrorDict.message d with
  | Some c, Some m => Ok {| JSONRPCError.code := c; JSONRPCError.message := m |}
  | None, _ => Raise (ValidationError "error.code: Field required")
  | _, None => Raise (ValidationError "error.message: Field required")
  end.

Module SendTaskRequest.
Record t := mk { id : option RequestId; params : TaskSendParams.t }.
End SendTaskRequest.

Module GetTaskRequest.
Record t := mk { id : option RequestId; params : TaskQueryParams.t }.
End GetTaskRequest.

(** Python object references. *)
Definition loc := positive.

Module JSONRPCResponse.
(** [result] is a reference to a [Task] object. *)
Record t := mk {
  id : option RequestId;
  result : option loc;
  error : option JSONRPCError.t }.
End JSONRPCResponse.
Abbreviation SendTaskResponse := JSONRPCResponse.mk (only parsing).
Abbreviation GetTaskResponse := JSONRPCResponse.mk (only parsing).

(** ** server/task_manager.py: InMemoryTaskManager *)

(** The state of one manager: [self.tasks] maps a task id to the [Task]
    object, [objects] holds the objects.  [now_src n] is what the [n]-th call
    of [datetime.now] returns.  [self.lock] serialises the blocks below: each
    [async with self.lock] block is one step of the model. *)
Record InMemoryTaskManager := mkTM {
  tasks : gmap string loc;
  objects : gmap loc Task.t;
  now_src : nat -> datetime;
  now_calls : nat }.

Abbreviation TM := (M InMemoryTaskManager).

(** [InMemoryTaskManager.__init__] *)
Definition init (clock : nat -> datetime) : InMemoryTaskManager :=
  {| tasks := ∅; objects := ∅; now_src := clock; now_calls := 0 |}.

Definition datetime_now : TM datetime :=
  fun st => (Ok (now_src st (now_calls st)),
             {| tasks := tasks st; objects := objects st;
                now_src := now_src st; now_calls := S (now_calls st) |}).

(** Allocation of a new [Task] object. *)
Definition new_task (t : Task.t) : TM loc :=
  fun st => let l := fresh (dom (objects st)) in
            (Ok l, {| tasks := tasks st; objects := <[l := t]> (objects st);
                      now_src := now_src st; now_calls := now_calls st |}).

(** In-place update of the object at [l]. *)
Definition update_task (l : loc) (f : Task.t -> Task.t) : TM unit :=
  fun st => (Ok tt, {| tasks := tasks st; objects := alter f l (objects st);
                       now_src := now_src st; now_calls := now_calls st |}).

(** [self.tasks[key] = l] *)
Definition tasks_setitem (key : string) (l : loc) : TM unit :=
  fun st => (Ok tt, {| tasks := <[key := l]> (tasks st); objects := objects st;
                       now_src := now_src st; now_calls := now_calls st |}).

(** [self.tasks.get(key)] *)
Definition tasks_get (key : string) : TM (option loc) :=
  fun st => (Ok (tasks st !! key), st).

(** [task.history.append(m)] *)
Definition history_append (m : Message.t) (t : Task.t) : Task.t :=
  {| Task.id := Task.id t; Task.status := Task.status t;
     Task.history := Task.history t ++ [m] |}.

(** [task.status = s] *)
Definition set_status (s : TaskStatus.t) (t : Task.t) : Task.t :=
  {| Task.id := Task.id t; Task.status := s; Task.history := Task.history t |}.

(** [task.history = h] *)
Definition set_history (h : list Message.t) (t : Task.t) : Task.t :=
  {| Task.id := Task.id t; Task.status := Task.status t; Task.history := h |}.

(** [TaskStatus(state=s)]: the timestamp defaults to [datetime.now()]. *)
Definition new_TaskStatus (s : TaskState) : TM TaskStatus.t :=
  do ts <- datetime_now ;;
  ret {| TaskStatus.state := TaskState_value s; TaskStatus.timestamp := ts |}.

Definition upsert_task (params : TaskSendParams.t) : TM loc :=
  do task <- tasks_get (TaskSendParams.id params) ;;
  match task with
  | None =>
      do st <- new_TaskStatus SUBMITTED ;;
      do task <- new_task {| Task.id := TaskSendParams.id params;
                             Task.status := st;
                             Task.history := [TaskSendParams.message params] |} ;;
      tasks_setitem (TaskSendParams.id params) task ;;;
      ret task
  | Some task =>
      update_task task (history_append (TaskSendParams.message params)) ;;;
      ret task
  end.

(** Reading the object behind a reference.  Every reference the code holds
    was returned by [new_task], so the [None] branch is not reached from a
    well-formed state (see [wf] below). *)
Definition deref (l : loc) : TM Task.t :=
  fun st => match objects st !! l with
            | Some t => (Ok t, st)
            | None => (Raise (TypeError "dangling reference"), st)
            end.

(** [task.model_copy()]: a new object with the same field values.  In
    Python the copy is shallow: until [task_copy.history] is rebound, the
    new object shares the history list of the original.  The store keeps
    the history of an object by value, so what is stated of a copy is its
    contents when [on_get_task] returns, not what a later [append] to the
    original's list makes of it. *)
Definition model_copy (l : loc) : TM loc :=
  do t <- deref l ;; new_task t.

(** Python's [l[i:]]: a negative start counts from the end, and the start
    is clamped to [0 .. len l]. *)
Definition slice_from {A} (i : Z) (l : list A) : list A :=
  let len := Z.of_nat (length l) in
  let start := if (i <? 0)%Z then Z.max (len + i) 0 else Z.min i len in
  drop (Z.to_nat start) l.

Definition on_get_task (request : GetTaskRequest.t) : TM JSONRPCResponse.t :=
  let query := GetTaskRequest.params request in
  do task <- tasks_get (TaskQueryParams.id query) ;;
  match task with
  | None =>
      do error <-
        lift (JSONRPCError_validate
                {| ErrorDict.code := None;
                   ErrorDict.message := Some "Task not found" |}) ;;
      ret (GetTaskResponse (GetTaskRequest.id request) None (Some error))
  | Some task =>
      do task_copy <- model_copy task ;;
      do t <- deref task_copy ;;
      match TaskQueryParams.historyLength query with
      | Some n =>
          update_task task_copy
            (set_history (slice_from (- n) (Task.history t)))
      | None =>
          update_task task_copy (set_history (Task.history t))
      end ;;;
      ret (GetTaskResponse (GetTaskRequest.id request) (Some task_copy) None)
  end.

(** [InMemoryTaskManager.on_send_task] *)
Definition on_send_task_base (request : SendTaskRequest.t) : TM JSONRPCResponse.t :=
  raise (NotImplementedError "on_send_task() must be implemented in subclass").

(** ** agents/tell_time_agent/task_manager.py *)

Module AgentTaskManager.
Section WithAgent.
(** [self.agent.invoke(query, session_id)]: the reasoner. *)
Variable invoke : string -> string -> outcome string.

Definition _get_user_query (request : SendTaskRequest.t) : outcome string :=
  match Message.parts (TaskSendParams.message (SendTaskRequest.params request)) with
  | p :: _ => Ok (TextPart.text p)
  | [] => Raise (IndexError "list index out of range")
  end.

Definition on_send_task (request : SendTaskRequest.t) : TM JSONRPCResponse.t :=
  do task <- upsert_task (SendTaskRequest.params request) ;;
  do query <- lift (_get_user_query request) ;;
  do result_text <-
    lift (invoke query (TaskSendParams.sessionId (SendTaskRequest.params request))) ;;
  let agent_message :=
    {| Message.role := agent; Message.parts := [TextPart.mk result_text] |} in
  do st <- new_TaskStatus COMPLETED ;;
  update_task task (set_status st) ;;;
  update_task task (history_append agent_message) ;;;
  ret (SendTaskResponse (SendTaskRequest.id request) (Some task) None).
End WithAgent.
End AgentTaskManager.

(** ** agents/greeting_agent/task_manager.py *)

Module GreetingTaskManager.
Section WithAgent.
Variable invoke : string -> string -> outcome string.

Definition _get_user_text (request : SendTaskRequest.t) : outcome string :=
  match Message.parts (TaskSendParams.message (SendTaskRequest.params request)) with
  | p :: _ => Ok (TextPart.text p)
  | [] => Raise (IndexError "list index out of range")
  end.

Definition on_send_task (request : SendTaskRequest.t) : TM JSONRPCResponse.t :=
  do task <- upsert_task (SendTaskRequest.params request) ;;
  do user_text <- lift (_get_user_text request) ;;
  do greeting_text <-
    lift (invoke user_text (TaskSendParams.sessionId (SendTaskRequest.params request))) ;;
  let reply_message :=
    {| Message.role := agent; Message.parts := [TextPart.mk greeting_text] |} in
  do st <- new_TaskStatus COMPLETED ;;
  update_task task (set_status st) ;;;
  update_task task (history_append reply_message) ;;;
  ret (SendTaskResponse (SendTaskRequest.id request) (Some task) None).
End WithAgent.
End GreetingTaskManager.

(** ** server/server.py: A2AServer *)

(** Modelled from the spec: the union validated by [A2ARequest]
    ([models/request.py]); the recognised shapes are send-task and
    get-task. *)
Inductive A2ARequest :=
  | ASendTask (r : SendTaskRequest.t)
  | AGetTask (r : GetTaskRequest.t).

(** [type(json_rpc)] as printed by an f-string. *)
Definition type_repr (r : A2ARequest) : string :=
  match r with
  | ASendTask _ => "<class 'models.request.SendTaskRequest'>"
  | AGetTask _ => "<class 'models.request.GetTaskRequest'>"
  end.

Definition A2ARequest_id (r : A2ARequest) : option RequestId :=
  match r with
  | ASendTask r => SendTaskRequest.id r
  | AGetTask r => GetTaskRequest.id r
  end.

(** What [model_dump] makes of a response: the [Task] behind [result] is
    read at that moment.  (With [exclude_none=True] the [None] fields are
    left out of the dictionary, without it they are dumped as [null].) *)
Module ResponseBody.
Record t := mk {
  id : option RequestId;
  result : option Task.t;
  error : option JSONRPCError.t }.
End ResponseBody.

Module JSONResponse.
Record t := mk { content : ResponseBody.t; status_code : Z }.
End JSONResponse.

(** The two methods every task manager implements ([class TaskManager(ABC)]). *)
Record TaskManager := {
  tm_on_send_task : SendTaskRequest.t -> TM JSONRPCResponse.t;
  tm_on_get_task : GetTaskRequest.t -> TM JSONRPCResponse.t }.

Definition model_dump (r : JSONRPCResponse.t) : TM ResponseBody.t :=
  match JSONRPCResponse.result r with
  | None =>
      ret {| ResponseBody.id := JSONRPCResponse.id r;
             ResponseBody.result := None;
             ResponseBody.error := JSONRPCResponse.error r |}
  | Some l =>
      do t <- deref l ;;
      ret {| ResponseBody.id := JSONRPCResponse.id r;
             ResponseBody.result := Some t;
             ResponseBody.error := JSONRPCResponse.error r |}
  end.

Section A2AServer.
(** The decoded JSON body, and [A2ARequest.validate_python] on it
    ([models/request.py]). *)
Variable Body : Type.
Variable validate_python : Body -> outcome A2ARequest.
(** The default [code] of [InternalError] ([models/json_rpc.py]). *)
Variable InternalError_code : Z.
(** [self.task_manager] *)
Variable task_manager : TaskManager.

(** The incoming request: [await request.json()] gives the decoded body
    or raises. *)
Record Request := { json : outcome Body }.

Definition InternalError (message : string) : JSONRPCError.t :=
  {| JSONRPCError.code := InternalError_code;
     JSONRPCError.message := message |}.

(** The [else] branch of the source ([raise ValueError("Invalid response
    type")]) needs a [result] that is no [JSONRPCResponse]; the managers'
    return type excludes it. *)
Definition _create_response (result : JSONRPCResponse.t) : TM JSONResponse.t :=
  do content <- model_dump result ;;
  ret {| JSONResponse.content := content; JSONResponse.status_code := 200 |}.

Definition _handle_request (request : Request) : TM JSONResponse.t :=
  try_except
    (do body <- lift (json request) ;;
     do json_rpc <- lift (validate_python body) ;;
     do result <-
       match json_rpc with
       | ASendTask r => tm_on_send_task task_manager r
       | _ => raise (ValueError ("Unsupported A2A method: " ++ type_repr json_rpc))
       end ;;
     _create_response result)
    (fun e =>
       ret {| JSONResponse.content :=
                {| ResponseBody.id := None;
                   ResponseBody.result := None;
                   ResponseBody.error := Some (InternalError (str e)) |};
              JSONResponse.status_code := 400 |}).
End A2AServer.

(** ** models/agent.py *)

Module AgentCapabilities.
Record t := mk {
  streaming : bool;
  pushNotifications : bool;
  stateTransitionHistory : bool }.
End AgentCapabilities.

Module AgentSkill.
Record t := mk {
  id : string;
  name : string;
  description : option string;
  tags : option (list string);
  examples : option (list string);
  inputModes : option (list string);
  outputModes : option (list string) }.
End AgentSkill.

Module AgentCard.
Record t := mk {
  name : string;
  description : string;
  url : string;
  version : string;
  capabilities : AgentCapabilities.t;
  skills : list AgentSkill.t }.
End AgentCard.

(** ** utilities/discovery.py: DiscoveryClient *)

(** [s.rstrip(c)] for a one-character argument. *)
Fixpoint rstrip (c : ascii) (s : string) : string :=
  match s with
  | EmptyString => EmptyString
  | String a s' =>
      match rstrip c s' with
      | EmptyString => if Ascii.eqb a c then EmptyString else String a EmptyString
      | r => String a r
      end
  end.

Section DiscoveryClient.
(** The HTTP client and the validation of the card, as functions of
    their argument: [client.get(url, timeout=5.0)],
    [response.raise_for_status()], [response.json()] and
    [AgentCard.model_validate]. *)
Variables HttpResponse Json : Type.
Variable client_get : string -> outcome HttpResponse.
Variable raise_for_status : HttpResponse -> outcome unit.
Variable response_json : HttpResponse -> outcome Json.
Variable model_validate : Json -> outcome AgentCard.t.

(** The state is the list of lines written by [logger.warning]. *)
Definition logger_warning (line : string) : M (list string) unit :=
  fun log => (Ok tt, (log ++ [line])%list).

Definition well_known (base : string) : string :=
  rstrip "/" base ++ "/.well-known/agent.json".

(** The body of the [for] loop, with [cards] as it stands. *)
Definition discover_one (base : string) (cards : list AgentCard.t)
  : M (list string) (list AgentCard.t) :=
  let url := well_known base in
  try_except
    (do response <- lift (client_get url) ;;
     lift (raise_for_status response) ;;;
     do body <- lift (response_json response) ;;
     do card <- lift (model_validate body) ;;
     ret (cards ++ [card])%list)
    (fun e =>
       logger_warning ("Failed to discover agent at " ++ url ++ ": " ++ str e) ;;;
       ret cards).

Fixpoint discover_loop (base_urls : list string) (cards : list AgentCard.t)
  : M (list string) (list AgentCard.t) :=
  match base_urls with
  | [] => ret cards
  | base :: rest =>
      do cards' <- discover_one base cards ;;
      discover_loop rest cards'
  end.

(** [self.base_urls] is the argument. *)
Definition list_agent_cards (base_urls : list string)
  : M (list string) (list AgentCard.t) :=
  discover_loop base_urls [].

(** The card behind one base URL, when every step of the fetch succeeds. *)
Definition fetch_card (base : string) : outcome AgentCard.t :=
  match client_get (well_known base) with
  | Raise e => Raise e
  | Ok response =>
      match raise_for_status response with
      | Raise e => Raise e
      | Ok _ =>
          match response_json response with
          | Raise e => Raise e
          | Ok body => model_validate body
          end
      end
  end.
End DiscoveryClient.

Definition outcome_to_option {A} (o : outcome A) : option A :=
  match o with Ok a => Some a | Raise _ => None end.

(** ** utilities/rpc_logger.py: RpcLogger *)

Definition LOG_FILE : string := "logs/rpc_logs.jsonl".

(** [os.path.dirname] on a relative path: what precedes the last ["/"]. *)
Fixpoint dirname (p : string) : string :=
  match p with
  | EmptyString => EmptyString
  | String a p' =>
      if existsb (Ascii.eqb "/") (list_ascii_of_string p')
      then String a (dirname p')
      else EmptyString
  end.

Module LogEntry.
Record t (Data : Type) := mk {
  timestamp : string;
  sender : string;
  receiver : string;
  direction : string;
  data : Data }.
Arguments mk {Data}.
End LogEntry.

(** [try: m finally: c], as the [with] statement closes its file. *)
Definition finally {S A} (m : M S A) (c : M S unit) : M S A :=
  fun s => match m s with
           | (r, s') =>
               match c s' with
               | (Ok _, s'') => (r, s'')
               | (Raise e, s'') => (Raise e, s'')
               end
           end.

Section RpcLogger.
(** The process environment (file system and clock) and the library
    calls on it. *)
Variables Env Data File : Type.
(** [os.makedirs(path, exist_ok=True)] *)
Variable os_makedirs : string -> M Env unit.
(** [datetime.utcnow().isoformat()] *)
Variable utcnow_isoformat : M Env string.
(** [open(path, "a")], [f.write(s)], and the close at the end of [with] *)
Variable open_append : string -> M Env File.
Variable file_write : File -> string -> M Env unit.
Variable file_close : File -> M Env unit.
(** [json.dumps] *)
Variable json_dumps : LogEntry.t Data -> outcome string.

Definition _ensure_log_dir : M Env unit :=
  os_makedirs (dirname LOG_FILE).

Definition newline : string := String (ascii_of_nat 10) EmptyString.

Definition log_interaction (sender receiver : string) (data : Data)
    (direction : string) : M Env unit :=
  _ensure_log_dir ;;;
  do now <- utcnow_isoformat ;;
  let entry := LogEntry.mk now sender receiver direction data in
  do f <- open_append LOG_FILE ;;
  finally
    (do line <- lift (json_dumps entry) ;;
     file_write f (line ++ newline))
    (file_close f).
End RpcLogger.

(** ** agents/host_agent/orchestrator.py: OrchestratorAgent *)

(** A Python [dict] with string keys: insertion-ordered, a later
    assignment to a key replaces the value in place. *)
Definition dict (V : Type) : Type := list (string * V).

Fixpoint dict_get {V} (k : string) (d : dict V) : option V :=
  match d with
  | [] => None
  | (k', v) :: d' => if String.eqb k k' then Some v else dict_get k d'
  end.

Fixpoint dict_set {V} (k : string) (v : V) (d : dict V) : dict V :=
  match d with
  | [] => [(k, v)]
  | (k', v') :: d' =>
      if String.eqb k k' then (k, v) :: d' else (k', v') :: dict_set k v d'
  end.

Definition dict_keys {V} (d : dict V) : list string := map fst d.

(** Modelled from the spec: the connector of
    [agents/host_agent/agent_connect.py], as the call
    [AgentConnector(card.name, card.url, sender_agent=...)] builds it. *)
Module AgentConnector.
Record t := mk { name : string; base_url : string; sender_agent : string }.
End AgentConnector.

(** [OrchestratorAgent.__init__]: the dictionary comprehension over the
    discovered cards. *)
Definition connectors (agent_cards : list AgentCard.t) : dict AgentConnector.t :=
  foldl (fun d card =>
           dict_set (AgentCard.name card)
             (AgentConnector.mk (AgentCard.name card) (AgentCard.url card)
                "orchestrator_agent") d)
        [] agent_cards.

Definition _list_agents (self_connectors : dict AgentConnector.t) : list string :=
  dict_keys self_connectors.

Section OrchestratorAgent.
(** [connector.send_task(message, session_id)]: the child's task as
    decoded from its reply, or an exception. *)
Variable send_task : AgentConnector.t -> string -> string -> outcome Task.t.
(** [self.connectors] *)
Variable self_connectors : dict AgentConnector.t.

(** The state is [tool_context.state]; [uuid4] is what
    [str(uuid.uuid4())] gives if it is called. *)
Definition _delegate_task (agent_name message : string) (uuid4 : string)
  : M (dict string) string :=
  match dict_get agent_name self_connectors with
  | None => raise (ValueError ("Unknown agent: " ++ agent_name))
  | Some connector =>
      do state <- get_state ;;
      match dict_get "session_id" state with
      | None => put_state (dict_set "session_id" uuid4 state)
      | Some _ => ret tt
      end ;;;
      do state <- get_state ;;
      do session_id <-
        match dict_get "session_id" state with
        | Some s => ret s
        | None => raise (KeyError "'session_id'")
        end ;;
      do child_task <- lift (send_task connector message session_id) ;;
      if (1 <? length (Task.history child_task))%nat then
        match last (Task.history child_task) with
        | Some m =>
            match Message.parts m with
            | p :: _ => ret (TextPart.text p)
            | [] => raise (IndexError "list index out of range")
            end
        | None => raise (IndexError "list index out of range")
        end
      else ret ""
  end.
End OrchestratorAgent.

(** [needle in hay] on strings. *)
Fixpoint is_substring (needle hay : string) : bool :=
  String.prefix needle hay ||
  match hay with
  | EmptyString => false
  | String _ hay' => is_substring needle hay'
  end.

(** *** The resolution order of the specification

    Exact match on the name ignoring case, then on the card's id if it has
    one, then the requested name as a substring of a card's name ignoring
    case; the first card in discovery order wins.  Ignoring case is
    comparing what [str.lower] gives, and [str_lower] stands for it. *)

(** [AgentCard] has no [id] field. *)
Definition card_id (_ : AgentCard.t) : option string := None.

Definition spec_resolve (str_lower : string -> string)
    (cards : list AgentCard.t) (requested : string) : option AgentCard.t :=
  let r := str_lower requested in
  match find (fun c => String.eqb (str_lower (AgentCard.name c)) r) cards with
  | Some c => Some c
  | None =>
      match find (fun c => match card_id c with
                           | Some i => String.eqb (str_lower i) r
                           | None => false
                           end) cards with
      | Some c => Some c
      | None => find (fun c => is_substring r (str_lower (AgentCard.name c))) cards
      end
  end.

(** An instance of [str_lower] for the examples.  It maps the letters A-Z
    to a-z and leaves every other character, which is what [str.lower]
    does on text made of ASCII characters, as the sample names and
    requests are; it is not [str.lower] on other text, and no statement
    below takes it for that. *)
Definition lower_ascii (a : ascii) : ascii :=
  let n := nat_of_ascii a in
  if ((65 <=? n) && (n <=? 90))%nat then ascii_of_nat (n + 32) else a.

Fixpoint sample_str_lower (s : string) : string :=
  match s with
  | EmptyString => EmptyString
  | String a s' => String (lower_ascii a) (sample_str_lower s')
  end.

(** ** Well-formed manager states and serialized runs *)

(** Every task id of [self.tasks] refers to a live object. *)
Definition wf (st : InMemoryTaskManager) : Prop :=
  forall k l, tasks st !! k = Some l -> is_Some (objects st !! l).

(** The task stored under an id. *)
Definition stored_task (st : InMemoryTaskManager) (task_id : string) : option Task.t :=
  match tasks st !! task_id with
  | Some l => objects st !! l
  | None => None
  end.

(** Its history, empty when there is no such task. *)
Definition stored_history (st : InMemoryTaskManager) (task_id : string)
  : list Message.t :=
  match stored_task st task_id with
  | Some t => Task.history t
  | None => []
  end.

(** Calls of [upsert_task] one after the other. *)
Fixpoint upsert_all (ps : list TaskSendParams.t) : TM unit :=
  match ps with
  | [] => ret tt
  | p :: rest => upsert_task p ;;; upsert_all rest
  end.

(** The last [n] elements of a list. *)
Definition last_n {A} (n : nat) (l : list A) : list A :=
  drop (length l - n) l.

(** ** Sample data *)

Definition sample_clock : nat -> datetime := fun n => (1000 + Z.of_nat n)%Z.

Definition text_message (r : Role) (s : string) : Message.t :=
  {| Message.role := r; Message.parts := [TextPart.mk s] |}.

Definition send_params (task_id : string) (m : Message.t) : TaskSendParams.t :=
  {| TaskSendParams.id := task_id;
     TaskSendParams.sessionId := "session-1";
     TaskSendParams.message := m;
     TaskSendParams.historyLength := None;
     TaskSendParams.metadata := None |}.

(** A manager that has seen one [upsert_task] for task ["t1"]. *)
Definition st_t1 : InMemoryTaskManager :=
  snd (upsert_task (send_params "t1" (text_message user "hi")) (init sample_clock)).

(** ... and a second one. *)
Definition st_t1_twice : InMemoryTaskManager :=
  snd (upsert_task (send_params "t1" (text_message user "again")) st_t1).

Definition stub_reasoner (reply : string) : string -> string -> outcome string :=
  fun _ _ => Ok reply.

(** *** The dispatch of the specification

    The recognised shapes are send-task and get-task, and each goes to the
    manager method of its name; everything else is as in
    [_handle_request]. *)
Definition spec_handle_request (Body : Type)
    (validate_python : Body -> outcome A2ARequest) (InternalError_code : Z)
    (task_manager : TaskManager) (request : Request Body) : TM JSONResponse.t :=
  try_except
    (do body <- lift (json Body request) ;;
     do json_rpc <- lift (validate_python body) ;;
     do result <-
       match json_rpc with
       | ASendTask r => tm_on_send_task task_manager r
       | AGetTask r => tm_on_get_task task_manager r
       end ;;
     _create_response result)
    (fun e =>
       ret {| JSONResponse.content :=
                {| ResponseBody.id := None;
                   ResponseBody.result := None;
                   ResponseBody.error :=
                     Some (InternalError InternalError_code (str e)) |};
              JSONResponse.status_code := 400 |}).

(** The body of every failure response of [_handle_request]. *)
Definition failure_response (InternalError_code : Z) (e : Exception)
  : JSONResponse.t :=
  {| JSONResponse.content :=
       {| ResponseBody.id := None;
          ResponseBody.result := None;
          ResponseBody.error :=
            Some {| JSONRPCError.code := InternalError_code;
                    JSONRPCError.message := str e |} |};
     JSONResponse.status_code := 400 |}.

(** A server over the tell-time manager with a reasoner that answers
    "hello"; the body is taken as already decoded and valid. *)
Definition sample_manager : TaskManager :=
  {| tm_on_send_task := AgentTaskManager.on_send_task (stub_reasoner "hello");
     tm_on_get_task := on_get_task |}.

Definition sample_validate (body : A2ARequest) : outcome A2ARequest := Ok body.

Definition get_t1_request : GetTaskRequest.t :=
  {| GetTaskRequest.id := Some (IdStr "req-1");
     GetTaskRequest.params :=
       {| TaskQueryParams.id := "t1"; TaskQueryParams.metadata := None;
          TaskQueryParams.historyLength := None |} |}.

(** A send-task request whose message has no part. *)
Definition empty_send_request : SendTaskRequest.t :=
  {| SendTaskRequest.id := Some (IdStr "req-2");
     SendTaskRequest.params :=
       send_params "t5" {| Message.role := user; Message.parts := [] |} |}.

Definition hi_send_request : SendTaskRequest.t :=
  {| SendTaskRequest.id := Some (IdStr "req-3");
     SendTaskRequest.params := send_params "t1" (text_message user "hi") |}.

(** *** Discovery: what the sweep amounts to, and a sample network *)

(** The warning logged for a base URL whose fetch fails. *)
Definition discovery_warning {HttpResponse Json : Type}
    (client_get : string -> outcome HttpResponse)
    (raise_for_status : HttpResponse -> outcome unit)
    (response_json : HttpResponse -> outcome Json)
    (model_validate : Json -> outcome AgentCard.t) (base : string)
  : option string :=
  match fetch_card HttpResponse Json client_get raise_for_status response_json
          model_validate base with
  | Ok _ => None
  | Raise e =>
      Some ("Failed to discover agent at " ++ well_known base ++ ": " ++ str e)
  end.

Definition sample_card (name url : string) : AgentCard.t :=
  {| AgentCard.name := name;
     AgentCard.description := "";
     AgentCard.url := url;
     AgentCard.version := "1.0.0";
     AgentCard.capabilities := AgentCapabilities.mk false false false;
     AgentCard.skills := [] |}.

Definition tell_time_card : AgentCard.t :=
  sample_card "TellTimeAgent" "http://localhost:10000/".
Definition greeting_card : AgentCard.t :=
  sample_card "GreetingAgent" "http://localhost:10002/".

(** Three registered peers; the one on port 10001 does not answer.  The
    response is the card itself. *)
Definition sample_client_get (url : string) : outcome AgentCard.t :=
  if String.eqb url "http://localhost:10000/.well-known/agent.json"
  then Ok tell_time_card
  else if String.eqb url "http://localhost:10002/.well-known/agent.json"
  then Ok greeting_card
  else Raise (HTTPError "All connection attempts failed").

Definition sample_registry : list string :=
  ["http://localhost:10000/"; "http://localhost:10001"; "http://localhost:10002"].

(** *** Logging: a sample environment

    The lines of the log file, and whether the working directory can be
    written. *)
Record SampleEnv := { writable : bool; log_lines : list string }.

Definition sample_makedirs (path : string) : M SampleEnv unit :=
  fun env =>
    if writable env then (Ok tt, env)
    else (Raise (OSError ("[Errno 13] Permission denied: '" ++ path ++ "'")), env).

Definition sample_utcnow : M SampleEnv string :=
  ret "2025-06-01T12:00:00".

Definition sample_open (path : string) : M SampleEnv string :=
  fun env =>
    if writable env then (Ok path, env)
    else (Raise (OSError ("[Errno 13] Permission denied: '" ++ path ++ "'")), env).

Definition sample_write (f : string) (s : string) : M SampleEnv unit :=
  fun env => (Ok tt, {| writable := writable env;
                        log_lines := (log_lines env ++ [s])%list |}).

Definition sample_close (f : string) : M SampleEnv unit := ret tt.

(** The payload is already JSON text. *)
Definition sample_json_dumps (entry : LogEntry.t string) : outcome string :=
  Ok ("{" ++ LogEntry.timestamp _ entry ++ ", " ++ LogEntry.sender _ entry ++ ", "
      ++ LogEntry.receiver _ entry ++ ", " ++ LogEntry.direction _ entry ++ ", "
      ++ LogEntry.data _ entry ++ "}").

(** *** Routing: the card a name selects, and sample peers *)

(** The last card of the list whose name is exactly [n]. *)
Fixpoint last_named (n : string) (cards : list AgentCard.t) : option AgentCard.t :=
  match cards with
  | [] => None
  | c :: cs =>
      match last_named n cs with
      | Some c' => Some c'
      | None => if String.eqb (AgentCard.name c) n then Some c else None
      end
  end.

Definition connector_of (card : AgentCard.t) : AgentConnector.t :=
  AgentConnector.mk (AgentCard.name card) (AgentCard.url card) "orchestrator_agent".

Definition sample_cards : list AgentCard.t := [tell_time_card; greeting_card].

(** A child that answers every message with "It is noon.". *)
Definition sample_send_task (connector : AgentConnector.t)
    (message session_id : string) : outcome Task.t :=
  Ok {| Task.id := "child-1";
        Task.status := {| TaskStatus.state := "completed";
                          TaskStatus.timestamp := 0%Z |};
        Task.history := [text_message user message;
                         text_message agent "It is noon."] |}.

(** ** agents/host_agent/orchestrator.py: OrchestratorTaskManager *)

Module OrchestratorTaskManager.
Section WithAgent.
(** [self.agent.invoke(user_text, session_id)] *)
Variable invoke : string -> string -> outcome string.

Definition _get_user_text (request : SendTaskRequest.t) : outcome string :=
  match Message.parts (TaskSendParams.message (SendTaskRequest.params request)) with
  | p :: _ => Ok (TextPart.text p)
  | [] => Raise (IndexError "list index out of range")
  end.

Definition on_send_task (request : SendTaskRequest.t) : TM JSONRPCResponse.t :=
  do task <- upsert_task (SendTaskRequest.params request) ;;
  do user_text <- lift (_get_user_text request) ;;
  do response_text <-
    lift (invoke user_text (TaskSendParams.sessionId (SendTaskRequest.params request))) ;;
  let reply :=
    {| Message.role := agent; Message.parts := [TextPart.mk response_text] |} in
  do st <- new_TaskStatus COMPLETED ;;
  update_task task (set_status st) ;;;
  update_task task (history_append reply) ;;;
  ret (SendTaskResponse (SendTaskRequest.id request) (Some task) None).
End WithAgent.
End OrchestratorTaskManager.

(** ** agents/greeting_agent/agent.py: GreetingAgent.invoke *)

Module GreetingAgent.
(** [self.name] and [self.user_id], set in [__init__]. *)
Definition name : string := "Vishesh".
Definition user_id : string := "greeting_user".

Definition invoke (query session_id : string) : outcome string :=
  Ok ("Hello " ++ name ++ ", how can I help you today?").

(** [self.connectors], and the lines [self.discovery] has logged. *)
Record self := {
  self_connectors : dict AgentConnector.t;
  discovery_log : list string }.

Section Tools.
(** [str.lower] *)
Variable str_lower : string -> string.
(** [self.discovery.list_agent_cards()] *)
Variable discovery_list_agent_cards : M (list string) (list AgentCard.t).
(** [connector.send_task(message, session_id=session_id)] *)
Variable send_task : AgentConnector.t -> string -> string -> outcome Task.t.

Definition discover : M self (list AgentCard.t) :=
  fun s =>
    match discovery_list_agent_cards (discovery_log s) with
    | (r, log) => (r, {| self_connectors := self_connectors s; discovery_log := log |})
    end.

(** The two [next(...)] of [call_agent].  A card has no attribute [id], so
    [getattr(c, "id", "")] is the empty string. *)
Definition matched (cards : list AgentCard.t) (agent_name : string)
  : option AgentCard.t :=
  match find (fun c =>
                String.eqb (str_lower (AgentCard.name c)) (str_lower agent_name)
                || String.eqb (str_lower "") (str_lower agent_name)) cards with
  | Some c => Some c
  | None =>
      find (fun c => is_substring (str_lower agent_name)
                       (str_lower (AgentCard.name c))) cards
  end.

Definition call_agent (agent_name message : string) : M self string :=
  do cards <- discover ;;
  match matched cards agent_name with
  | None => raise (ValueError ("Agent '" ++ agent_name ++ "' not found."))
  | Some matched =>
      let key := AgentCard.name matched in
      do s <- get_state ;;
      match dict_get key (self_connectors s) with
      | None =>
          put_state
            {| self_connectors :=
                 dict_set key
                   (AgentConnector.mk (AgentCard.name matched) (AgentCard.url matched)
                      "GreetingAgent") (self_connectors s);
               discovery_log := discovery_log s |}
      | Some _ => ret tt
      end ;;;
      do s <- get_state ;;
      do connector <-
        match dict_get key (self_connectors s) with
        | Some c => ret c
        | None => raise (KeyError key)
        end ;;
      let session_id := user_id in
      do task <- lift (send_task connector message session_id) ;;
      match last (Task.history task) with
      | Some m =>
          match Message.parts m with
          | p :: _ => ret (TextPart.text p)
          | [] => ret ""
          end
      | None => ret ""
      end
  end.
End Tools.
End GreetingAgent.

(** The sweep over the sample registry, as the greeting agent's discovery
    client runs it. *)
Definition sample_discovery : M (list string) (list AgentCard.t) :=
  list_agent_cards AgentCard.t AgentCard.t sample_client_get
    (fun _ => Ok tt) Ok Ok sample_registry.

(** ** The store invariant and runs of manager calls *)

(** Every stored id refers to a live object, two ids never share an
    object, and a stored task carries the id it is stored under. *)
Definition store_ok (st : InMemoryTaskManager) : Prop :=
  wf st /\
  (forall k1 k2 l, tasks st !! k1 = Some l -> tasks st !! k2 = Some l -> k1 = k2) /\
  (forall k l t, tasks st !! k = Some l -> objects st !! l = Some t -> Task.id t = k).

(** One call on a manager, by whoever holds it. *)
Inductive ManagerCall :=
  | CallUpsert (params : TaskSendParams.t)
  | CallGet (request : GetTaskRequest.t)
  | CallSendTellTime (request : SendTaskRequest.t)
  | CallSendGreeting (request : SendTaskRequest.t)
  | CallSendOrchestrator (request : SendTaskRequest.t).

(** The state after a call, whether it returned or raised. *)
Definition after_call (invoke : string -> string -> outcome string)
    (c : ManagerCall) (st : InMemoryTaskManager) : InMemoryTaskManager :=
  match c with
  | CallUpsert params => snd (upsert_task params st)
  | CallGet request => snd (on_get_task request st)
  | CallSendTellTime request => snd (AgentTaskManager.on_send_task invoke request st)
  | CallSendGreeting request => snd (GreetingTaskManager.on_send_task invoke request st)
  | CallSendOrchestrator request =>
      snd (OrchestratorTaskManager.on_send_task invoke request st)
  end.

Definition after_calls (invoke : string -> string -> outcome string)
    (cs : list ManagerCall) (st : InMemoryTaskManager) : InMemoryTaskManager :=
  foldl (fun s c => after_call invoke c s) st cs.

(** Send-task calls one after the other, up to the first that raises. *)
Fixpoint send_all (invoke : string -> string -> outcome string)
    (requests : list SendTaskRequest.t) : TM unit :=
  match requests with
  | [] => ret tt
  | r :: rest => AgentTaskManager.on_send_task invoke r ;;; send_all invoke rest
  end.

(** The messages one successful send-task call adds to the history. *)
Definition exchange (request : SendTaskRequest.t) (reply : string) : list Message.t :=
  [TaskSendParams.message (SendTaskRequest.params request);
   {| Message.role := agent; Message.parts := [TextPart.mk reply] |}].

(** The reply of the reasoner to the first text part of a request. *)
Definition reply_to (invoke : string -> string -> outcome string)
    (request : SendTaskRequest.t) : option string :=
  match Message.parts (TaskSendParams.message (SendTaskRequest.params request)) with
  | p :: _ =>
      outcome_to_option
        (invoke (TextPart.text p)
           (TaskSendParams.sessionId (SendTaskRequest.params request)))
  | [] => None
  end.

(** A reasoner that always fails. *)
Definition failing_reasoner : string -> string -> outcome string :=
  fun _ _ => Raise (ValueError "model unavailable").

(** ** client/client.py: A2AClient *)

(** What the client's methods raise: its two exception classes, or an
    exception they do not catch. *)
Inductive ClientException :=
  | A2AClientHTTPError (status_code : Z) (msg : string)
  | A2AClientJSONError (msg : string)
  | Uncaught (e : Exception).

Inductive client_outcome (A : Type) : Type :=
  | Returns (a : A)
  | Raises (e : ClientException).
Arguments Returns {A} a.
Arguments Raises {A} e.

Section A2AClient.
(** The other side of the connection, the HTTP response, the decoded JSON
    body and the caller's payload dictionary. *)
Variables World HttpResponse Json Payload : Type.
(** [client.post(self.url, json=request.model_dump(), timeout=30)]: the
    response, or an exception of the transport. *)
Variable post : string -> A2ARequest -> World -> outcome HttpResponse * World.
(** [response.raise_for_status()]: [Some m] when it raises
    [httpx.HTTPStatusError], [m] being [str(e)]; [e.response.status_code]. *)
Variable raise_for_status : HttpResponse -> option string.
Variable response_status_code : HttpResponse -> Z.
(** [response.json()]: the body, or the message of the [JSONDecodeError]. *)
Variable response_json : HttpResponse -> string + Json.
(** the call of [Task] on the entries of [response["result"]] *)
Variable Task_of_result : Json -> outcome Task.t.
(** [TaskSendParams] built from the entries of [payload], and
    [GetTaskRequest(params=payload)] *)
Variable TaskSendParams_of : Payload -> outcome TaskSendParams.t.
Variable GetTaskRequest_of : Payload -> outcome GetTaskRequest.t.
(** [self.url] *)
Variable self_url : string.

Definition _send_request (request : A2ARequest) (w : World)
  : client_outcome Json * World :=
  match post self_url request w with
  | (Raise e, w') => (Raises (Uncaught e), w')
  | (Ok response, w') =>
      match raise_for_status response with
      | Some msg =>
          (Raises (A2AClientHTTPError (response_status_code response) msg), w')
      | None =>
          match response_json response with
          | inl msg => (Raises (A2AClientJSONError msg), w')
          | inr body => (Returns body, w')
          end
      end
  end.

(** [uuid] is what [uuid4().hex] gives. *)
Definition client_send_task (payload : Payload) (uuid : string) (w : World)
  : client_outcome Task.t * World :=
  match TaskSendParams_of payload with
  | Raise e => (Raises (Uncaught e), w)
  | Ok params =>
      let request :=
        {| SendTaskRequest.id := Some (IdStr uuid); SendTaskRequest.params := params |} in
      match _send_request (ASendTask request) w with
      | (Raises e, w') => (Raises e, w')
      | (Returns response, w') =>
          match Task_of_result response with
          | Ok t => (Returns t, w')
          | Raise e => (Raises (Uncaught e), w')
          end
      end
  end.

Definition client_get_task (payload : Payload) (w : World)
  : client_outcome Task.t * World :=
  match GetTaskRequest_of payload with
  | Raise e => (Raises (Uncaught e), w)
  | Ok request =>
      match _send_request (AGetTask request) w with
      | (Raises e, w') => (Raises e, w')
      | (Returns response, w') =>
          match Task_of_result response with
          | Ok t => (Returns t, w')
          | Raise e => (Raises (Uncaught e), w')
          end
      end
  end.
End A2AClient.

(** *** The client in front of the server of this repository

    The request reaches [_handle_request] as the client built it, and the
    answer of the handler is the HTTP response. *)
Definition server_post (InternalError_code : Z) (task_manager : TaskManager)
    (url : string) (request : A2ARequest)
  : InMemoryTaskManager -> outcome JSONResponse.t * InMemoryTaskManager :=
  _handle_request A2ARequest (fun body => Ok body) InternalError_code task_manager
    {| json := Ok request |}.

(** the call of [Task] on the entries of [response["result"]] on the body of a response. *)
Definition body_task (body : ResponseBody.t) : outcome Task.t :=
  match ResponseBody.result body with
  | Some t => Ok t
  | None => Raise (KeyError "'result'")
  end.

(** [raise_for_status] as far as the two statuses of the server go. *)
Definition sample_raise_for_status (response : JSONResponse.t) : option string :=
  if (JSONResponse.status_code response =? 200)%Z then None
  else Some "Client error '400 Bad Request'".

(** [n] copies of one character. *)
Fixpoint repeat_char (c : ascii) (n : nat) : string :=
  match n with
  | O => EmptyString
  | S n' => String c (repeat_char c n')
  end.

(** * Properties *)

Local Open Scope list_scope.

(** ** The object store *)

Lemma fresh_object_unused (st : InMemoryTaskManager) :
  objects st !! fresh (dom (objects st)) = None.
Proof. apply not_elem_of_dom, is_fresh. Qed.

Lemma wf_init (clock : nat -> datetime) : wf (init clock).
Proof. intros k l H. simpl in H. by rewrite lookup_empty in H. Qed.

Lemma wf_live (st : InMemoryTaskManager) (k : string) (l : loc) :
  wf st -> tasks st !! k = Some l -> exists t, objects st !! l = Some t.
Proof. intros Hwf H. destruct (Hwf k l H) as [t Ht]. by exists t. Qed.

(** ** upsert_task *)

Lemma upsert_task_create (st : InMemoryTaskManager) (params : TaskSendParams.t) :
  tasks st !! TaskSendParams.id params = None ->
  upsert_task params st =
    (Ok (fresh (dom (objects st))),
     {| tasks := <[TaskSendParams.id params := fresh (dom (objects st))]> (tasks st);
        objects :=
          <[fresh (dom (objects st)) :=
              {| Task.id := TaskSendParams.id params;
                 Task.status :=
                   {| TaskStatus.state := "submitted";
                      TaskStatus.timestamp := now_src st (now_calls st) |};
                 Task.history := [TaskSendParams.message params] |}]> (objects st);
        now_src := now_src st;
        now_calls := S (now_calls st) |}).
Proof.
  intros H. unfold upsert_task, bind, tasks_get. rewrite H. reflexivity.
Qed.

Lemma upsert_task_append (st : InMemoryTaskManager) (params : TaskSendParams.t)
    (l : loc) :
  tasks st !! TaskSendParams.id params = Some l ->
  upsert_task params st =
    (Ok l,
     {| tasks := tasks st;
        objects := alter (history_append (TaskSendParams.message params)) l (objects st);
        now_src := now_src st;
        now_calls := now_calls st |}).
Proof.
  intros H. unfold upsert_task, bind, tasks_get. rewrite H. reflexivity.
Qed.

Lemma upsert_task_wf (st st' : InMemoryTaskManager) (params : TaskSendParams.t)
    (r : outcome loc) :
  wf st -> upsert_task params st = (r, st') -> wf st'.
Proof.
  intros Hwf Hrun.
  destruct (tasks st !! TaskSendParams.id params) as [l|] eqn:Hlook.
  - rewrite (upsert_task_append _ _ _ Hlook) in Hrun.
    injection Hrun as _ <-. intros k l0 Hk. simpl in *.
    apply lookup_alter_is_Some. eauto.
  - rewrite (upsert_task_create _ _ Hlook) in Hrun.
    injection Hrun as _ <-. intros k l0 Hk. simpl in *.
    apply lookup_insert_is_Some'.
    destruct (decide (TaskSendParams.id params = k)) as [Heq|Hne].
    + rewrite Heq, lookup_insert_eq in Hk. left. congruence.
    + rewrite lookup_insert_ne in Hk by done. right. eauto.
Qed.

(** After one call the task stored under the id has the earlier history
    followed by the message. *)
Lemma upsert_task_stored (st : InMemoryTaskManager) (params : TaskSendParams.t) :
  wf st ->
  exists l st' t,
    upsert_task params st = (Ok l, st') /\
    tasks st' !! TaskSendParams.id params = Some l /\
    objects st' !! l = Some t /\
    Task.history t =
      stored_history st (TaskSendParams.id params) ++ [TaskSendParams.message params].
Proof.
  intros Hwf. unfold stored_history, stored_task.
  destruct (tasks st !! TaskSendParams.id params) as [l|] eqn:Hlook.
  - destruct (wf_live _ _ _ Hwf Hlook) as [t Ht].
    eexists l, _, (history_append (TaskSendParams.message params) t).
    split; [by apply upsert_task_append|]. simpl. rewrite Ht.
    split; [done|]. split; [|done]. by rewrite lookup_alter_eq, Ht.
  - eexists _, _, _. split; [by apply upsert_task_create|]. simpl.
    rewrite !lookup_insert_eq. done.
Qed.

(** Tasks under other ids keep their object and its contents. *)
Lemma upsert_task_other (st st' : InMemoryTaskManager) (params : TaskSendParams.t)
    (r : outcome loc) (k : string) :
  wf st -> (forall k1 k2 l, tasks st !! k1 = Some l -> tasks st !! k2 = Some l -> k1 = k2) ->
  k <> TaskSendParams.id params ->
  upsert_task params st = (r, st') ->
  stored_task st' k = stored_task st k.
Proof.
  intros Hwf Hinj Hne Hrun. unfold stored_task.
  destruct (tasks st !! TaskSendParams.id params) as [l|] eqn:Hlook.
  - rewrite (upsert_task_append _ _ _ Hlook) in Hrun.
    injection Hrun as _ <-. simpl.
    destruct (tasks st !! k) as [l0|] eqn:Hk; [|done].
    rewrite lookup_alter_ne; [done|]. intros ->. apply Hne. eauto.
  - rewrite (upsert_task_create _ _ Hlook) in Hrun.
    injection Hrun as _ <-. simpl. rewrite lookup_insert_ne by done.
    destruct (tasks st !! k) as [l0|] eqn:Hk; [|done].
    rewrite lookup_insert_ne; [done|]. intros <-.
    destruct (wf_live _ _ _ Hwf Hk) as [t Ht].
    by rewrite fresh_object_unused in Ht.
Qed.

Lemma upsert_all_history (ps : list TaskSendParams.t) :
  forall (st : InMemoryTaskManager) (task_id : string),
    wf st ->
    Forall (fun p => TaskSendParams.id p = task_id) ps ->
    exists st',
      upsert_all ps st = (Ok tt, st') /\ wf st' /\
      stored_history st' task_id =
        stored_history st task_id ++ map TaskSendParams.message ps /\
      (ps <> [] -> is_Some (stored_task st' task_id)).
Proof.
  induction ps as [|p ps IH]; intros st task_id Hwf Hall.
  - exists st. simpl. rewrite app_nil_r. done.
  - apply Forall_cons in Hall as [Hp Hall]. subst task_id.
    destruct (upsert_task_stored st p Hwf) as (l & st1 & t & Hrun & Hl & Ht & Hh).
    assert (Hst : stored_task st1 (TaskSendParams.id p) = Some t)
      by (unfold stored_task; by rewrite Hl).
    assert (Hwf1 : wf st1) by (eapply upsert_task_wf; eauto).
    destruct (IH st1 _ Hwf1 Hall) as (st' & Hrest & Hwf' & Hh' & Hsome).
    exists st'. simpl. unfold bind at 1. rewrite Hrun.
    split; [done|]. split; [done|]. split.
    + rewrite Hh'. unfold stored_history at 1. rewrite Hst, Hh.
      by rewrite <- app_assoc.
    + intros _. destruct ps as [|q ps'].
      * simpl in Hrest. injection Hrest as <-. by rewrite Hst.
      * apply Hsome. done.
Qed.

Lemma wf_st_t1 : wf st_t1.
Proof.
  eapply upsert_task_wf; [apply (wf_init sample_clock)|].
  unfold st_t1. apply surjective_pairing.
Qed.

(** C1.  [upsert_task] on a well-formed manager state: (a) when no task is
    stored under [params.id], a new object is allocated, stored under that
    id and returned, with status state "submitted" and the one-message
    history [[params.message]]; (b) when a task is stored under
    [params.id], that same object is returned with [params.message]
    appended at the end of its history; (c) after any non-empty run of
    serialized calls that all carry one task id, the history stored under
    that id is the history stored before followed by the messages of the
    calls in call order. *)
Theorem upsert_task_spec (st : InMemoryTaskManager) (Hwf : wf st) :
  (forall params : TaskSendParams.t,
      tasks st !! TaskSendParams.id params = None ->
      exists l st' ts,
        upsert_task params st = (Ok l, st') /\
        objects st !! l = None /\
        tasks st' !! TaskSendParams.id params = Some l /\
        objects st' !! l =
          Some {| Task.id := TaskSendParams.id params;
                  Task.status :=
                    {| TaskStatus.state := TaskState_value SUBMITTED;
                       TaskStatus.timestamp := ts |};
                  Task.history := [TaskSendParams.message params] |}) /\
  (forall (params : TaskSendParams.t) (l : loc) (t : Task.t),
      tasks st !! TaskSendParams.id params = Some l ->
      objects st !! l = Some t ->
      exists st',
        upsert_task params st = (Ok l, st') /\
        tasks st' !! TaskSendParams.id params = Some l /\
        objects st' !! l =
          Some {| Task.id := Task.id t;
                  Task.status := Task.status t;
                  Task.history := Task.history t ++ [TaskSendParams.message params] |}) /\
  (forall (task_id : string) (ps : list TaskSendParams.t),
      ps <> [] ->
      Forall (fun p => TaskSendParams.id p = task_id) ps ->
      exists st' t,
        upsert_all ps st = (Ok tt, st') /\
        stored_task st' task_id = Some t /\
        Task.history t = stored_history st task_id ++ map TaskSendParams.message ps).
Proof.
  split; [|split].
  - intros params Hnone. eexists _, _, _.
    split; [by apply upsert_task_create|]. simpl.
    split; [apply fresh_object_unused|]. by rewrite !lookup_insert_eq.
  - intros params l t Hl Ht. eexists.
    split; [by apply upsert_task_append|]. simpl.
    split; [done|]. by rewrite lookup_alter_eq, Ht.
  - intros task_id ps Hne Hall.
    destruct (upsert_all_history ps st task_id Hwf Hall)
      as (st' & Hrun & _ & Hh & Hsome).
    destruct (Hsome Hne) as [t Ht]. exists st', t.
    split; [done|]. split; [done|].
    unfold stored_history at 1 in Hh. by rewrite Ht in Hh.
Qed.

Lemma upsert_task_spec_witness :
  (exists l st' ts,
      upsert_task (send_params "t2" (text_message user "yo")) st_t1 = (Ok l, st') /\
      objects st_t1 !! l = None /\
      tasks st' !! "t2" = Some l /\
      objects st' !! l =
        Some {| Task.id := "t2";
                Task.status := {| TaskStatus.state := "submitted";
                                  TaskStatus.timestamp := ts |};
                Task.history := [text_message user "yo"] |}) /\
  (exists st',
      upsert_task (send_params "t1" (text_message user "again")) st_t1
        = (Ok 1%positive, st') /\
      tasks st' !! "t1" = Some 1%positive /\
      objects st' !! 1%positive =
        Some {| Task.id := "t1";
                Task.status := {| TaskStatus.state := "submitted";
                                  TaskStatus.timestamp := 1000%Z |};
                Task.history := [text_message user "hi"; text_message user "again"] |}) /\
  (exists st' t,
      upsert_all [send_params "t1" (text_message user "a");
                  send_params "t1" (text_message user "b");
                  send_params "t1" (text_message user "c")] st_t1 = (Ok tt, st') /\
      stored_task st' "t1" = Some t /\
      Task.history t =
        [text_message user "hi"; text_message user "a";
         text_message user "b"; text_message user "c"]).
Proof.
  pose proof (upsert_task_spec st_t1 wf_st_t1) as (Hnew & Hold & Hseq).
  split; [|split].
  - apply (Hnew (send_params "t2" (text_message user "yo"))). reflexivity.
  - apply (Hold (send_params "t1" (text_message user "again")) 1%positive
             {| Task.id := "t1";
                Task.status := {| TaskStatus.state := "submitted";
                                  TaskStatus.timestamp := 1000%Z |};
                Task.history := [text_message user "hi"] |});
      reflexivity.
  - apply (Hseq "t1"); [discriminate|]. repeat constructor.
Defined.

(** C10.  [upsert_task] on an existing task changes nothing of the stored
    task but its history: the id, the status state and the status
    timestamp are those from before the call, the history is the earlier
    one with [params.message] appended; the dictionary of tasks and the
    clock are untouched. *)
Theorem upsert_task_frame (st : InMemoryTaskManager) (params : TaskSendParams.t)
    (l : loc) (t : Task.t) :
  tasks st !! TaskSendParams.id params = Some l ->
  objects st !! l = Some t ->
  exists st' t',
    upsert_task params st = (Ok l, st') /\
    objects st' !! l = Some t' /\
    Task.id t' = Task.id t /\
    TaskStatus.state (Task.status t') = TaskStatus.state (Task.status t) /\
    TaskStatus.timestamp (Task.status t') = TaskStatus.timestamp (Task.status t) /\
    Task.history t' = Task.history t ++ [TaskSendParams.message params] /\
    tasks st' = tasks st /\
    now_calls st' = now_calls st.
Proof.
  intros Hl Ht. eexists _, (history_append (TaskSendParams.message params) t).
  split; [by apply upsert_task_append|]. simpl.
  split; [by rewrite lookup_alter_eq, Ht|].
  repeat (split; [done|]). done.
Qed.

Lemma upsert_task_frame_witness :
  exists st' t',
    upsert_task (send_params "t1" (text_message user "again")) st_t1
      = (Ok 1%positive, st') /\
    objects st' !! 1%positive = Some t' /\
    Task.id t' = "t1" /\
    TaskStatus.state (Task.status t') = "submitted" /\
    TaskStatus.timestamp (Task.status t') = 1000%Z /\
    Task.history t' = [text_message user "hi"; text_message user "again"] /\
    tasks st' = tasks st_t1 /\
    now_calls st' = 1.
Proof.
  apply (upsert_task_frame st_t1
           (send_params "t1" (text_message user "again")) 1%positive
           {| Task.id := "t1";
              Task.status := {| TaskStatus.state := "submitted";
                                TaskStatus.timestamp := 1000%Z |};
              Task.history := [text_message user "hi"] |});
    reflexivity.
Defined.

(** ** on_get_task *)

Lemma slice_from_neg (A : Type) (n : Z) (l : list A) :
  (0 < n)%Z -> slice_from (- n) l = last_n (Z.to_nat n `min` length l) l.
Proof.
  intros Hn. unfold slice_from, last_n.
  destruct (Z.ltb_spec (- n) 0) as [_|?]; [|lia].
  f_equal. lia.
Qed.

Lemma slice_from_zero (A : Type) (l : list A) : slice_from (- 0) l = l.
Proof.
  unfold slice_from. simpl. rewrite Z.min_l by lia. reflexivity.
Qed.

Lemma last_n_length (A : Type) (n : nat) (l : list A) :
  length (last_n n l) = n `min` length l.
Proof. unfold last_n. rewrite length_drop. lia. Qed.

Lemma last_n_all (A : Type) (n : nat) (l : list A) :
  length l <= n -> last_n n l = l.
Proof.
  intros H. unfold last_n. replace (length l - n) with 0 by lia. reflexivity.
Qed.

(** What [on_get_task] answers for a stored task: a copy, a new object,
    whose history is the slice [history[-n:]] when [historyLength] is [n]
    and the stored history when it is absent; the stored task itself is
    not modified. *)
Lemma on_get_task_found (st : InMemoryTaskManager) (request : GetTaskRequest.t)
    (l : loc) (t : Task.t) :
  tasks st !! TaskQueryParams.id (GetTaskRequest.params request) = Some l ->
  objects st !! l = Some t ->
  exists l' st',
    on_get_task request st =
      (Ok {| JSONRPCResponse.id := GetTaskRequest.id request;
             JSONRPCResponse.result := Some l';
             JSONRPCResponse.error := None |}, st') /\
    objects st !! l' = None /\
    objects st' !! l' =
      Some {| Task.id := Task.id t;
              Task.status := Task.status t;
              Task.history :=
                match TaskQueryParams.historyLength (GetTaskRequest.params request) with
                | Some n => slice_from (- n) (Task.history t)
                | None => Task.history t
                end |} /\
    tasks st' = tasks st /\
    objects st' !! l = Some t.
Proof.
  intros Hl Ht. exists (fresh (dom (objects st))).
  pose proof (fresh_object_unused st) as Hfresh.
  assert (Hne : fresh (dom (objects st)) <> l) by congruence.
  unfold on_get_task, bind, tasks_get, model_copy, bind, deref, new_task.
  rewrite Hl, Ht. simpl. rewrite lookup_insert_eq.
  destruct (TaskQueryParams.historyLength (GetTaskRequest.params request));
    simpl; eexists; (split; [reflexivity|]); simpl;
    rewrite lookup_alter_eq, lookup_insert_eq, lookup_alter_ne, lookup_insert_ne
      by done; done.
Qed.

(** C9.  A get-task request for an id that is not in the store:
    [on_get_task] builds its response from the dictionary
    [{"message": "Task not found"}], which has no [code]; the validation of
    the error refuses it, so the call raises a validation error and answers
    nothing, where a response with the error message "Task not found" and
    no result is due.  The manager state is exactly the one before the call
    (nothing is created), and an [upsert_task] on that id after it still
    creates the task: status state "submitted", history [[params.message]]. *)
Theorem on_get_task_not_found (st : InMemoryTaskManager) (request : GetTaskRequest.t) :
  tasks st !! TaskQueryParams.id (GetTaskRequest.params request) = None ->
  (exists msg, on_get_task request st = (Raise (ValidationError msg), st)) /\
  (forall resp st', on_get_task request st <> (Ok resp, st')) /\
  (forall params : TaskSendParams.t,
      TaskSendParams.id params = TaskQueryParams.id (GetTaskRequest.params request) ->
      exists l st' ts,
        upsert_task params (snd (on_get_task request st)) = (Ok l, st') /\
        objects st !! l = None /\
        tasks st' !! TaskSendParams.id params = Some l /\
        objects st' !! l =
          Some {| Task.id := TaskSendParams.id params;
                  Task.status :=
                    {| TaskStatus.state := TaskState_value SUBMITTED;
                       TaskStatus.timestamp := ts |};
                  Task.history := [TaskSendParams.message params] |}).
Proof.
  intros Hnone.
  assert (Hrun : on_get_task request st =
            (Raise (ValidationError "error.code: Field required"), st)).
  { unfold on_get_task, bind, tasks_get. rewrite Hnone. reflexivity. }
  split; [by eexists|]. split; [intros resp st'; by rewrite Hrun|].
  intros params Hid. rewrite Hrun. simpl. rewrite <- Hid in Hnone.
  eexists _, _, _. split; [by apply upsert_task_create|]. simpl.
  split; [apply fresh_object_unused|]. by rewrite !lookup_insert_eq.
Qed.

Lemma on_get_task_not_found_witness :
  (exists msg,
      on_get_task
        {| GetTaskRequest.id := Some (IdStr "req-7");
           GetTaskRequest.params :=
             {| TaskQueryParams.id := "t9"; TaskQueryParams.metadata := None;
                TaskQueryParams.historyLength := None |} |} st_t1 =
        (Raise (ValidationError msg), st_t1)) /\
  exists l st' ts,
    upsert_task (send_params "t9" (text_message user "hi"))
      (snd (on_get_task
              {| GetTaskRequest.id := Some (IdStr "req-7");
                 GetTaskRequest.params :=
                   {| TaskQueryParams.id := "t9"; TaskQueryParams.metadata := None;
                      TaskQueryParams.historyLength := None |} |} st_t1))
      = (Ok l, st') /\
    objects st_t1 !! l = None /\
    tasks st' !! "t9" = Some l /\
    objects st' !! l =
      Some {| Task.id := "t9";
              Task.status := {| TaskStatus.state := "submitted";
                                TaskStatus.timestamp := ts |};
              Task.history := [text_message user "hi"] |}.
Proof.
  pose proof (on_get_task_not_found st_t1
           {| GetTaskRequest.id := Some (IdStr "req-7");
              GetTaskRequest.params :=
                {| TaskQueryParams.id := "t9"; TaskQueryParams.metadata := None;
                   TaskQueryParams.historyLength := None |} |} eq_refl)
    as (Hget & _ & Hupsert).
  split; [exact Hget|].
  apply (Hupsert (send_params "t9" (text_message user "hi"))). reflexivity.
Defined.

(** For a positive [historyLength] the copy holds the last
    [min n L] messages, and without [historyLength] the whole history. *)
Lemma on_get_task_positive_length (st : InMemoryTaskManager)
    (request : GetTaskRequest.t) (l : loc) (t : Task.t) (n : Z) :
  tasks st !! TaskQueryParams.id (GetTaskRequest.params request) = Some l ->
  objects st !! l = Some t ->
  TaskQueryParams.historyLength (GetTaskRequest.params request) = Some n ->
  (0 < n)%Z ->
  exists l' st' t',
    on_get_task request st =
      (Ok {| JSONRPCResponse.id := GetTaskRequest.id request;
             JSONRPCResponse.result := Some l';
             JSONRPCResponse.error := None |}, st') /\
    objects st' !! l' = Some t' /\
    Task.history t' = last_n (Z.to_nat n `min` length (Task.history t)) (Task.history t).
Proof.
  intros Hl Ht Hn Hpos.
  destruct (on_get_task_found st request l t Hl Ht) as (l' & st' & Hrun & _ & Hc & _).
  eexists l', st', _. split; [exact Hrun|]. split; [exact Hc|].
  simpl. rewrite Hn. by apply slice_from_neg.
Qed.

Lemma on_get_task_no_length (st : InMemoryTaskManager)
    (request : GetTaskRequest.t) (l : loc) (t : Task.t) :
  tasks st !! TaskQueryParams.id (GetTaskRequest.params request) = Some l ->
  objects st !! l = Some t ->
  TaskQueryParams.historyLength (GetTaskRequest.params request) = None ->
  exists l' st' t',
    on_get_task request st =
      (Ok {| JSONRPCResponse.id := GetTaskRequest.id request;
             JSONRPCResponse.result := Some l';
             JSONRPCResponse.error := None |}, st') /\
    objects st' !! l' = Some t' /\
    Task.history t' = Task.history t.
Proof.
  intros Hl Ht Hn.
  destruct (on_get_task_found st request l t Hl Ht) as (l' & st' & Hrun & _ & Hc & _).
  eexists l', st', _. split; [exact Hrun|]. split; [exact Hc|].
  simpl. by rewrite Hn.
Qed.

(** With [historyLength = 0] the copy holds the whole history. *)
Lemma on_get_task_zero_length (st : InMemoryTaskManager)
    (request : GetTaskRequest.t) (l : loc) (t : Task.t) :
  tasks st !! TaskQueryParams.id (GetTaskRequest.params request) = Some l ->
  objects st !! l = Some t ->
  TaskQueryParams.historyLength (GetTaskRequest.params request) = Some 0%Z ->
  exists l' st' t',
    on_get_task request st =
      (Ok {| JSONRPCResponse.id := GetTaskRequest.id request;
             JSONRPCResponse.result := Some l';
             JSONRPCResponse.error := None |}, st') /\
    objects st' !! l' = Some t' /\
    Task.history t' = Task.history t.
Proof.
  intros Hl Ht Hn.
  destruct (on_get_task_found st request l t Hl Ht) as (l' & st' & Hrun & _ & Hc & _).
  eexists l', st', _. split; [exact Hrun|]. split; [exact Hc|].
  simpl. rewrite Hn. apply slice_from_zero.
Qed.

(** C3.  With [historyLength = 0] the slice is [history[-0:]], which is
    [history[0:]]: for the task ["t1"] holding two messages the copy
    returned by [on_get_task] carries both of them, not the empty history
    that "the last [min 0 2] messages" asks for. *)
Theorem on_get_task_history_length_zero :
  exists l' st' t',
    on_get_task
      {| GetTaskRequest.id := Some (IdStr "req-1");
         GetTaskRequest.params :=
           {| TaskQueryParams.id := "t1"; TaskQueryParams.metadata := None;
              TaskQueryParams.historyLength := Some 0%Z |} |} st_t1_twice =
      (Ok {| JSONRPCResponse.id := Some (IdStr "req-1");
             JSONRPCResponse.result := Some l';
             JSONRPCResponse.error := None |}, st') /\
    stored_history st_t1_twice "t1" =
      [text_message user "hi"; text_message user "again"] /\
    objects st' !! l' = Some t' /\
    Task.history t' = [text_message user "hi"; text_message user "again"] /\
    Task.history t' <> last_n (Z.to_nat 0 `min` 2) (stored_history st_t1_twice "t1").
Proof.
  eexists _, _, _. split; [reflexivity|].
  split; [reflexivity|]. split; [reflexivity|]. split; [reflexivity|].
  discriminate.
Qed.

(** ** The invariant is kept by the read and by the concrete managers *)

Lemma wf_objects_mono (st st' : InMemoryTaskManager) :
  tasks st' = tasks st ->
  (forall l, is_Some (objects st !! l) -> is_Some (objects st' !! l)) ->
  wf st -> wf st'.
Proof.
  intros Htasks Hobj Hwf k l Hk. rewrite Htasks in Hk. apply Hobj. eauto.
Qed.

Lemma on_get_task_wf (st st' : InMemoryTaskManager) (request : GetTaskRequest.t)
    (r : outcome JSONRPCResponse.t) :
  wf st -> on_get_task request st = (r, st') -> wf st'.
Proof.
  intros Hwf Hrun.
  destruct (tasks st !! TaskQueryParams.id (GetTaskRequest.params request))
    as [l|] eqn:Hl.
  - destruct (wf_live _ _ _ Hwf Hl) as [t Ht].
    revert Hrun.
    unfold on_get_task, bind, tasks_get, model_copy, bind, deref, new_task.
    rewrite Hl, Ht. simpl. rewrite lookup_insert_eq.
    destruct (TaskQueryParams.historyLength (GetTaskRequest.params request));
      simpl; intros [= _ <-];
      (apply (wf_objects_mono st); [done| |done]);
      intros l0 Hl0; simpl;
      apply lookup_alter_is_Some, lookup_insert_is_Some'; by right.
  - revert Hrun. unfold on_get_task, bind, tasks_get. rewrite Hl.
    by intros [= _ <-].
Qed.

Lemma agent_on_send_task_wf (invoke : string -> string -> outcome string)
    (st st' : InMemoryTaskManager) (request : SendTaskRequest.t)
    (r : outcome JSONRPCResponse.t) :
  wf st -> AgentTaskManager.on_send_task invoke request st = (r, st') -> wf st'.
Proof.
  intros Hwf.
  unfold AgentTaskManager.on_send_task, bind at 1.
  destruct (upsert_task (SendTaskRequest.params request) st) as [[l|e] st1] eqn:Hup;
    pose proof (upsert_task_wf _ _ _ _ Hwf Hup) as Hwf1;
    [|by intros [= _ <-]].
  unfold bind, lift.
  destruct (AgentTaskManager._get_user_query request) as [q|e];
    [|by intros [= _ <-]].
  destruct (invoke q _) as [reply|e]; [|by intros [= _ <-]].
  simpl. intros [= _ <-].
  apply (wf_objects_mono st1); [done| |done].
  intros l0 Hl0. simpl. by apply lookup_alter_is_Some, lookup_alter_is_Some.
Qed.

(** ** on_send_task of the concrete managers *)

(** The two managers run the same steps. *)
Lemma greeting_on_send_task_eq (invoke : string -> string -> outcome string) :
  GreetingTaskManager.on_send_task invoke = AgentTaskManager.on_send_task invoke.
Proof. reflexivity. Qed.

Lemma agent_on_send_task_completes (invoke : string -> string -> outcome string)
    (st : InMemoryTaskManager) (request : SendTaskRequest.t)
    (p : TextPart.t) (ps : list TextPart.t) (r : string) :
  let params := SendTaskRequest.params request in
  wf st ->
  Message.parts (TaskSendParams.message params) = p :: ps ->
  invoke (TextPart.text p) (TaskSendParams.sessionId params) = Ok r ->
  exists l st' t,
    AgentTaskManager.on_send_task invoke request st =
      (Ok {| JSONRPCResponse.id := SendTaskRequest.id request;
             JSONRPCResponse.result := Some l;
             JSONRPCResponse.error := None |}, st') /\
    tasks st' !! TaskSendParams.id params = Some l /\
    objects st' !! l = Some t /\
    TaskStatus.state (Task.status t) = TaskState_value COMPLETED /\
    Task.history t =
      stored_history st (TaskSendParams.id params) ++
      [TaskSendParams.message params;
       {| Message.role := agent; Message.parts := [TextPart.mk r] |}].
Proof.
  intros params Hwf Hparts Hinv.
  destruct (upsert_task_stored st params Hwf) as (l & st1 & t & Hrun & Hl & Ht & Hh).
  exists l.
  unfold AgentTaskManager.on_send_task, AgentTaskManager._get_user_query.
  fold params. rewrite Hparts. unfold bind at 1. rewrite Hrun.
  unfold bind, lift. rewrite Hinv. simpl.
  eexists _, _. split; [reflexivity|]. simpl.
  split; [exact Hl|]. rewrite !lookup_alter_eq, Ht. simpl.
  split; [reflexivity|]. split; [reflexivity|].
  unfold history_append, set_status. simpl.
  rewrite Hh. by rewrite <- app_assoc.
Qed.

(** C2.  A send-task request whose message has a first text part, handled
    from a well-formed state by [AgentTaskManager.on_send_task] or by
    [GreetingTaskManager.on_send_task] with a reasoner that answers [r] to
    that text: the response carries the request id and the stored task;
    that task's status state is "completed" and its history is the history
    stored before the call followed by the request's message and an
    agent-role message with the single text part [r]. *)
Theorem on_send_task_completes (invoke : string -> string -> outcome string)
    (st : InMemoryTaskManager) (request : SendTaskRequest.t)
    (p : TextPart.t) (ps : list TextPart.t) (r : string) :
  wf st ->
  Message.parts (TaskSendParams.message (SendTaskRequest.params request)) = p :: ps ->
  invoke (TextPart.text p)
    (TaskSendParams.sessionId (SendTaskRequest.params request)) = Ok r ->
  exists l st' t,
    AgentTaskManager.on_send_task invoke request st =
      (Ok {| JSONRPCResponse.id := SendTaskRequest.id request;
             JSONRPCResponse.result := Some l;
             JSONRPCResponse.error := None |}, st') /\
    GreetingTaskManager.on_send_task invoke request st =
      (Ok {| JSONRPCResponse.id := SendTaskRequest.id request;
             JSONRPCResponse.result := Some l;
             JSONRPCResponse.error := None |}, st') /\
    tasks st' !! TaskSendParams.id (SendTaskRequest.params request) = Some l /\
    objects st' !! l = Some t /\
    TaskStatus.state (Task.status t) = TaskState_value COMPLETED /\
    Task.history t =
      stored_history st (TaskSendParams.id (SendTaskRequest.params request)) ++
      [TaskSendParams.message (SendTaskRequest.params request);
       {| Message.role := agent; Message.parts := [TextPart.mk r] |}].
Proof.
  intros Hwf Hparts Hinv.
  destruct (agent_on_send_task_completes invoke st request p ps r Hwf Hparts Hinv)
    as (l & st' & t & Hrun & Hl & Ht & Hs & Hh).
  exists l, st', t. split; [exact Hrun|].
  split; [rewrite (greeting_on_send_task_eq invoke); exact Hrun|]. done.
Qed.

(** The end-to-end example: task ["t1"], user message "hi", a reasoner
    that answers "hello", on a new manager. *)
Lemma on_send_task_completes_witness :
  exists l st' t,
    AgentTaskManager.on_send_task (stub_reasoner "hello")
      {| SendTaskRequest.id := Some (IdStr "req-1");
         SendTaskRequest.params := send_params "t1" (text_message user "hi") |}
      (init sample_clock) =
      (Ok {| JSONRPCResponse.id := Some (IdStr "req-1");
             JSONRPCResponse.result := Some l;
             JSONRPCResponse.error := None |}, st') /\
    GreetingTaskManager.on_send_task (stub_reasoner "hello")
      {| SendTaskRequest.id := Some (IdStr "req-1");
         SendTaskRequest.params := send_params "t1" (text_message user "hi") |}
      (init sample_clock) =
      (Ok {| JSONRPCResponse.id := Some (IdStr "req-1");
             JSONRPCResponse.result := Some l;
             JSONRPCResponse.error := None |}, st') /\
    tasks st' !! "t1" = Some l /\
    objects st' !! l = Some t /\
    TaskStatus.state (Task.status t) = "completed" /\
    Task.history t = [text_message user "hi"; text_message agent "hello"].
Proof.
  apply (on_send_task_completes (stub_reasoner "hello") (init sample_clock)
           {| SendTaskRequest.id := Some (IdStr "req-1");
              SendTaskRequest.params := send_params "t1" (text_message user "hi") |}
           (TextPart.mk "hi") [] "hello").
  - apply wf_init.
  - reflexivity.
  - reflexivity.
Defined.

(** ** _handle_request *)

Section HandleRequest.
Context (Body : Type) (validate_python : Body -> outcome A2ARequest)
        (InternalError_code : Z) (task_manager : TaskManager).

Local Abbreviation handle :=
  (_handle_request Body validate_python InternalError_code task_manager).

Lemma handle_request_bad_json (request : Request Body)
    (st : InMemoryTaskManager) (e : Exception) :
  json Body request = Raise e ->
  handle request st = (Ok (failure_response InternalError_code e), st).
Proof.
  intros H. unfold _handle_request, try_except, bind, lift. rewrite H.
  reflexivity.
Qed.

Lemma handle_request_invalid (request : Request Body)
    (st : InMemoryTaskManager) (body : Body) (e : Exception) :
  json Body request = Ok body ->
  validate_python body = Raise e ->
  handle request st = (Ok (failure_response InternalError_code e), st).
Proof.
  intros H1 H2. unfold _handle_request, try_except, bind, lift.
  rewrite H1, H2. reflexivity.
Qed.

Lemma handle_request_get_task (request : Request Body)
    (st : InMemoryTaskManager) (body : Body) (r : GetTaskRequest.t) :
  json Body request = Ok body ->
  validate_python body = Ok (AGetTask r) ->
  handle request st =
    (Ok (failure_response InternalError_code
           (ValueError ("Unsupported A2A method: " ++
                        "<class 'models.request.GetTaskRequest'>")%string)),
     st).
Proof.
  intros H1 H2. unfold _handle_request, try_except, bind, lift.
  rewrite H1, H2. reflexivity.
Qed.

Lemma handle_request_send_raises (request : Request Body)
    (st st' : InMemoryTaskManager) (body : Body) (r : SendTaskRequest.t)
    (e : Exception) :
  json Body request = Ok body ->
  validate_python body = Ok (ASendTask r) ->
  tm_on_send_task task_manager r st = (Raise e, st') ->
  handle request st = (Ok (failure_response InternalError_code e), st').
Proof.
  intros H1 H2 H3. unfold _handle_request, try_except, bind, lift.
  rewrite H1, H2, H3. reflexivity.
Qed.

Lemma handle_request_send_ok (request : Request Body)
    (st st1 st2 : InMemoryTaskManager) (body : Body) (r : SendTaskRequest.t)
    (resp : JSONRPCResponse.t) (content : ResponseBody.t) :
  json Body request = Ok body ->
  validate_python body = Ok (ASendTask r) ->
  tm_on_send_task task_manager r st = (Ok resp, st1) ->
  model_dump resp st1 = (Ok content, st2) ->
  handle request st =
    (Ok {| JSONResponse.content := content; JSONResponse.status_code := 200 |},
     st2).
Proof.
  intros H1 H2 H3 H4.
  unfold _handle_request, _create_response, try_except, bind, lift.
  rewrite H1, H2, H3, H4. reflexivity.
Qed.

(** The handler always answers; an answer that is not a 200 is a
    [failure_response]. *)
Lemma handle_request_total (request : Request Body) (st : InMemoryTaskManager) :
  exists resp st',
    handle request st = (Ok resp, st') /\
    (JSONResponse.status_code resp = 200%Z \/
     exists e, resp = failure_response InternalError_code e).
Proof.
  unfold _handle_request, _create_response, try_except, bind, lift, ret.
  destruct (json Body request) as [body|e]; [|by eauto 6].
  destruct (validate_python body) as [[r|r]|e]; [| by eauto 6 | by eauto 6].
  destruct (tm_on_send_task task_manager r st) as [[resp|e] st1]; [|by eauto 6].
  destruct (model_dump resp st1) as [[c|e] st2]; by eauto 6.
Qed.
End HandleRequest.

(** C4 (as the code has it).  At [POST /] only a send-task request is
    handed to the task manager: its answer, dumped, is the 200 response.  A
    valid get-task request is not handed to [on_get_task]: whatever the
    manager, the answer is the 400 failure response with the message
    "Unsupported A2A method: <class 'models.request.GetTaskRequest'>" and
    the manager state is left as it was. *)
Theorem handle_request_dispatch (Body : Type)
    (validate_python : Body -> outcome A2ARequest) (InternalError_code : Z)
    (task_manager : TaskManager) (request : Request Body) (body : Body)
    (st : InMemoryTaskManager) :
  json Body request = Ok body ->
  (forall r : GetTaskRequest.t,
      validate_python body = Ok (AGetTask r) ->
      forall tm' : TaskManager,
        _handle_request Body validate_python InternalError_code tm' request st =
          (Ok (failure_response InternalError_code
                 (ValueError
                    "Unsupported A2A method: <class 'models.request.GetTaskRequest'>")),
           st)) /\
  (forall (r : SendTaskRequest.t) (resp : JSONRPCResponse.t)
          (st1 st2 : InMemoryTaskManager) (content : ResponseBody.t),
      validate_python body = Ok (ASendTask r) ->
      tm_on_send_task task_manager r st = (Ok resp, st1) ->
      model_dump resp st1 = (Ok content, st2) ->
      _handle_request Body validate_python InternalError_code task_manager request st =
        (Ok {| JSONResponse.content := content; JSONResponse.status_code := 200 |},
         st2)).
Proof.
  intros Hjson. split.
  - intros r Hv tm'. by eapply handle_request_get_task.
  - intros r resp st1 st2 content Hv Hsend Hdump.
    by eapply handle_request_send_ok.
Qed.

Lemma handle_request_dispatch_witness :
  (forall tm' : TaskManager,
      _handle_request A2ARequest sample_validate (-32603) tm'
        {| json := Ok (AGetTask get_t1_request) |} st_t1 =
        (Ok (failure_response (-32603)
               (ValueError
                  "Unsupported A2A method: <class 'models.request.GetTaskRequest'>")),
         st_t1)) /\
  exists st2,
    _handle_request A2ARequest sample_validate (-32603) sample_manager
      {| json := Ok (ASendTask hi_send_request) |} (init sample_clock) =
      (Ok {| JSONResponse.content :=
               {| ResponseBody.id := Some (IdStr "req-3");
                  ResponseBody.result :=
                    Some {| Task.id := "t1";
                            Task.status :=
                              {| TaskStatus.state := "completed";
                                 TaskStatus.timestamp := 1001%Z |};
                            Task.history :=
                              [text_message user "hi"; text_message agent "hello"] |};
                  ResponseBody.error := None |};
             JSONResponse.status_code := 200 |}, st2).
Proof.
  split.
  - apply (proj1 (handle_request_dispatch A2ARequest sample_validate (-32603)
                    sample_manager {| json := Ok (AGetTask get_t1_request) |}
                    (AGetTask get_t1_request) st_t1 eq_refl) get_t1_request).
    reflexivity.
  - eexists.
    eapply (proj2 (handle_request_dispatch A2ARequest sample_validate (-32603)
                     sample_manager {| json := Ok (ASendTask hi_send_request) |}
                     (ASendTask hi_send_request) (init sample_clock) eq_refl)
              hi_send_request).
    + reflexivity.
    + vm_compute. reflexivity.
    + vm_compute. reflexivity.
Defined.

(** C4 as stated fails: for the stored task ["t1"] a get-task request gets
    the 400 failure response from [_handle_request], while the dispatch of
    the specification answers 200 with the task. *)
Lemma handle_request_get_task_counterexample :
  fst (_handle_request A2ARequest sample_validate (-32603) sample_manager
         {| json := Ok (AGetTask get_t1_request) |} st_t1) =
    Ok (failure_response (-32603)
          (ValueError
             "Unsupported A2A method: <class 'models.request.GetTaskRequest'>")) /\
  fst (spec_handle_request A2ARequest sample_validate (-32603) sample_manager
         {| json := Ok (AGetTask get_t1_request) |} st_t1) =
    Ok {| JSONResponse.content :=
            {| ResponseBody.id := Some (IdStr "req-1");
               ResponseBody.result :=
                 Some {| Task.id := "t1";
                         Task.status :=
                           {| TaskStatus.state := "submitted";
                              TaskStatus.timestamp := 1000%Z |};
                         Task.history := [text_message user "hi"] |};
               ResponseBody.error := None |};
          JSONResponse.status_code := 200 |} /\
  fst (_handle_request A2ARequest sample_validate (-32603) sample_manager
         {| json := Ok (AGetTask get_t1_request) |} st_t1) <>
  fst (spec_handle_request A2ARequest sample_validate (-32603) sample_manager
         {| json := Ok (AGetTask get_t1_request) |} st_t1).
Proof.
  split; [reflexivity|]. split; [reflexivity|]. discriminate.
Qed.

(** C5 (as the code has it).  Every failure at [POST /] is answered, never
    raised: a body that does not parse, a body that does not validate, a
    get-task request, and an exception of [on_send_task] each give status
    400 with the error built from the exception's message, no result, and
    the id [None] (also when the request carried an id); any answer that is
    not a 200 is of that form. *)
Theorem handle_request_failure (Body : Type)
    (validate_python : Body -> outcome A2ARequest) (InternalError_code : Z)
    (task_manager : TaskManager) (request : Request Body)
    (st : InMemoryTaskManager) :
  (forall e, json Body request = Raise e ->
     _handle_request Body validate_python InternalError_code task_manager request st
       = (Ok (failure_response InternalError_code e), st)) /\
  (forall body e, json Body request = Ok body -> validate_python body = Raise e ->
     _handle_request Body validate_python InternalError_code task_manager request st
       = (Ok (failure_response InternalError_code e), st)) /\
  (forall body r, json Body request = Ok body ->
     validate_python body = Ok (AGetTask r) ->
     _handle_request Body validate_python InternalError_code task_manager request st
       = (Ok (failure_response InternalError_code
                (ValueError
                   "Unsupported A2A method: <class 'models.request.GetTaskRequest'>")),
          st)) /\
  (forall body r e st', json Body request = Ok body ->
     validate_python body = Ok (ASendTask r) ->
     tm_on_send_task task_manager r st = (Raise e, st') ->
     _handle_request Body validate_python InternalError_code task_manager request st
       = (Ok (failure_response InternalError_code e), st')) /\
  (exists resp st',
     _handle_request Body validate_python InternalError_code task_manager request st
       = (Ok resp, st') /\
     (JSONResponse.status_code resp <> 200%Z ->
      JSONResponse.status_code resp = 400%Z /\
      ResponseBody.id (JSONResponse.content resp) = None /\
      ResponseBody.result (JSONResponse.content resp) = None /\
      exists e,
        ResponseBody.error (JSONResponse.content resp) =
          Some {| JSONRPCError.code := InternalError_code;
                  JSONRPCError.message := str e |})).
Proof.
  split; [intros; by apply handle_request_bad_json|].
  split; [intros; by eapply handle_request_invalid|].
  split; [intros; by eapply handle_request_get_task|].
  split; [intros; by eapply handle_request_send_raises|].
  destruct (handle_request_total Body validate_python InternalError_code
              task_manager request st) as (resp & st' & Hrun & Hcase).
  exists resp, st'. split; [exact Hrun|]. intros Hne.
  destruct Hcase as [H200|[e ->]]; [done|]. simpl. eauto.
Qed.

Lemma handle_request_failure_witness :
  _handle_request A2ARequest sample_validate (-32603) sample_manager
    {| json := Raise (ValueError "Expecting value: line 1 column 1 (char 0)") |}
    st_t1 =
    (Ok (failure_response (-32603)
           (ValueError "Expecting value: line 1 column 1 (char 0)")), st_t1) /\
  exists st',
    _handle_request A2ARequest sample_validate (-32603) sample_manager
      {| json := Ok (ASendTask empty_send_request) |} st_t1 =
      (Ok (failure_response (-32603) (IndexError "list index out of range")), st').
Proof.
  split.
  - apply (proj1 (handle_request_failure A2ARequest sample_validate (-32603)
                    sample_manager _ st_t1)).
    reflexivity.
  - eexists.
    eapply (proj1 (proj2 (proj2 (proj2
              (handle_request_failure A2ARequest sample_validate (-32603)
                 sample_manager {| json := Ok (ASendTask empty_send_request) |}
                 st_t1))))); reflexivity.
Defined.

(** C5 as stated fails: a send-task request with id "req-2" whose message
    has no part makes [on_send_task] raise; the 400 response carries the id
    [None], not the id of the request. *)
Lemma handle_request_failure_id_counterexample :
  exists resp st',
    _handle_request A2ARequest sample_validate (-32603) sample_manager
      {| json := Ok (ASendTask empty_send_request) |} (init sample_clock)
      = (Ok resp, st') /\
    A2ARequest_id (ASendTask empty_send_request) = Some (IdStr "req-2") /\
    JSONResponse.status_code resp = 400%Z /\
    ResponseBody.id (JSONResponse.content resp) = None /\
    ResponseBody.id (JSONResponse.content resp) <>
      A2ARequest_id (ASendTask empty_send_request).
Proof.
  eexists _, _. split; [reflexivity|]. simpl.
  split; [reflexivity|]. split; [reflexivity|]. split; [reflexivity|].
  discriminate.
Qed.

(** ** list_agent_cards *)

Section Discovery.
Context (HttpResponse Json : Type)
        (client_get : string -> outcome HttpResponse)
        (raise_for_status : HttpResponse -> outcome unit)
        (response_json : HttpResponse -> outcome Json)
        (model_validate : Json -> outcome AgentCard.t).

Local Abbreviation fetch :=
  (fetch_card HttpResponse Json client_get raise_for_status response_json
     model_validate).
Local Abbreviation warning :=
  (discovery_warning client_get raise_for_status response_json model_validate).

(** One turn of the loop: a card more, or a warning more. *)
Lemma discover_one_outcome (base : string) (cards : list AgentCard.t)
    (log : list string) :
  discover_one HttpResponse Json client_get raise_for_status response_json
    model_validate base cards log =
  match fetch base with
  | Ok card => (Ok (cards ++ [card]), log)
  | Raise e =>
      (Ok cards,
       log ++ [("Failed to discover agent at " ++ well_known base ++ ": "
                ++ str e)%string])
  end.
Proof.
  unfold discover_one, fetch_card, try_except, bind, lift, logger_warning, ret.
  destruct (client_get (well_known base)) as [response|e]; [|reflexivity].
  destruct (raise_for_status response) as [[]|e]; [|reflexivity].
  destruct (response_json response) as [body|e]; [|reflexivity].
  destruct (model_validate body) as [card|e]; reflexivity.
Qed.

Lemma discover_loop_outcome (base_urls : list string) :
  forall (cards : list AgentCard.t) (log : list string),
    discover_loop HttpResponse Json client_get raise_for_status response_json
      model_validate base_urls cards log =
    (Ok (cards ++ omap (fun b => outcome_to_option (fetch b)) base_urls),
     log ++ omap warning base_urls).
Proof.
  induction base_urls as [|base rest IH]; intros cards log; simpl.
  - unfold ret. by rewrite !app_nil_r.
  - unfold bind. rewrite discover_one_outcome.
    unfold discovery_warning.
    destruct (fetch base) as [card|e]; simpl; rewrite IH.
    + by rewrite <- app_assoc.
    + by rewrite <- app_assoc.
Qed.
End Discovery.

(** C8.  Whatever the registry and whichever of its URLs fail (at the
    request, at the status check, at decoding the body or at validating the
    card), [list_agent_cards] returns and does not raise; the result is the
    list of the cards of the URLs whose fetch succeeds, in registry order,
    and one warning is logged for each URL that fails.  In particular, for
    three URLs of which the second fails, the result is the first and the
    third card in that order. *)
Theorem list_agent_cards_skips_failures (HttpResponse Json : Type)
    (client_get : string -> outcome HttpResponse)
    (raise_for_status : HttpResponse -> outcome unit)
    (response_json : HttpResponse -> outcome Json)
    (model_validate : Json -> outcome AgentCard.t)
    (base_urls : list string) (log : list string) :
  let fetch := fetch_card HttpResponse Json client_get raise_for_status
                 response_json model_validate in
  let run := list_agent_cards HttpResponse Json client_get raise_for_status
               response_json model_validate in
  run base_urls log =
    (Ok (omap (fun b => outcome_to_option (fetch b)) base_urls),
     log ++ omap (discovery_warning client_get raise_for_status response_json
                    model_validate) base_urls) /\
  (forall (u1 u2 u3 : string) (c1 c3 : AgentCard.t) (e : Exception),
      fetch u1 = Ok c1 -> fetch u2 = Raise e -> fetch u3 = Ok c3 ->
      fst (run [u1; u2; u3] log) = Ok [c1; c3]).
Proof.
  intros fetch run. split.
  - unfold run, list_agent_cards. by rewrite discover_loop_outcome.
  - intros u1 u2 u3 c1 c3 e H1 H2 H3.
    unfold run, list_agent_cards. rewrite discover_loop_outcome. simpl.
    fold fetch. by rewrite H1, H2, H3.
Qed.

Lemma list_agent_cards_skips_failures_witness :
  list_agent_cards AgentCard.t AgentCard.t sample_client_get
    (fun _ => Ok tt) Ok Ok sample_registry [] =
    (Ok [tell_time_card; greeting_card],
     ["Failed to discover agent at http://localhost:10001/.well-known/agent.json: All connection attempts failed"]) /\
  fst (list_agent_cards AgentCard.t AgentCard.t sample_client_get
         (fun _ => Ok tt) Ok Ok sample_registry []) =
    Ok [tell_time_card; greeting_card].
Proof.
  pose proof (list_agent_cards_skips_failures AgentCard.t AgentCard.t
                sample_client_get (fun _ => Ok tt) Ok Ok sample_registry [])
    as [Hall Hthree].
  split.
  - exact Hall.
  - apply (Hthree "http://localhost:10000/" "http://localhost:10001"
             "http://localhost:10002" tell_time_card greeting_card
             (HTTPError "All connection attempts failed"));
      reflexivity.
Defined.

(** ** log_interaction *)

Lemma dirname_LOG_FILE : dirname LOG_FILE = "logs".
Proof. reflexivity. Qed.

(** C7 (as the code has it).  [log_interaction] has no handler of its own:
    an exception of the directory creation, of opening the log file, of
    [json.dumps] or of the write leaves the call as it was raised (the file,
    once opened, is closed first); the call returns normally exactly when
    every step succeeds, and then one line has been written. *)
Theorem log_interaction_propagates (Env Data File : Type)
    (os_makedirs : string -> M Env unit) (utcnow_isoformat : M Env string)
    (open_append : string -> M Env File)
    (file_write : File -> string -> M Env unit)
    (file_close : File -> M Env unit)
    (json_dumps : LogEntry.t Data -> outcome string)
    (sender receiver : string) (data : Data) (direction : string) (env : Env) :
  let run := log_interaction Env Data File os_makedirs utcnow_isoformat
               open_append file_write file_close json_dumps
               sender receiver data direction in
  (forall e env1,
      os_makedirs "logs" env = (Raise e, env1) -> run env = (Raise e, env1)) /\
  (forall env1 now env2,
      os_makedirs "logs" env = (Ok tt, env1) ->
      utcnow_isoformat env1 = (Ok now, env2) ->
      (forall e env3,
          open_append LOG_FILE env2 = (Raise e, env3) ->
          run env = (Raise e, env3)) /\
      (forall f env3,
          open_append LOG_FILE env2 = (Ok f, env3) ->
          (forall e env4,
              json_dumps (LogEntry.mk now sender receiver direction data) = Raise e ->
              file_close f env3 = (Ok tt, env4) ->
              run env = (Raise e, env4)) /\
          (forall line,
              json_dumps (LogEntry.mk now sender receiver direction data) = Ok line ->
              (forall e env4 env5,
                  file_write f (line ++ newline)%string env3 = (Raise e, env4) ->
                  file_close f env4 = (Ok tt, env5) ->
                  run env = (Raise e, env5)) /\
              (forall env4 env5,
                  file_write f (line ++ newline)%string env3 = (Ok tt, env4) ->
                  file_close f env4 = (Ok tt, env5) ->
                  run env = (Ok tt, env5))))).
Proof.
  intros run. subst run.
  unfold log_interaction, _ensure_log_dir, finally, bind, lift.
  rewrite dirname_LOG_FILE.
  split.
  - intros e env1 ->. reflexivity.
  - intros env1 now env2 -> ->. split.
    + intros e env3 ->. reflexivity.
    + intros f env3 ->. split.
      * intros e env4 -> ->. reflexivity.
      * intros line ->. split.
        -- intros e env4 env5 -> ->. reflexivity.
        -- intros env4 env5 -> ->. reflexivity.
Qed.

Lemma log_interaction_propagates_witness :
  log_interaction SampleEnv string string sample_makedirs sample_utcnow
    sample_open sample_write sample_close sample_json_dumps
    "orchestrator_agent" "TellTimeAgent" "{}" "send"
    {| writable := false; log_lines := [] |} =
    (Raise (OSError "[Errno 13] Permission denied: 'logs'"),
     {| writable := false; log_lines := [] |}) /\
  log_interaction SampleEnv string string sample_makedirs sample_utcnow
    sample_open sample_write sample_close sample_json_dumps
    "orchestrator_agent" "TellTimeAgent" "{}" "send"
    {| writable := true; log_lines := [] |} =
    (Ok tt,
     {| writable := true;
        log_lines :=
          [("{2025-06-01T12:00:00, orchestrator_agent, TellTimeAgent, send, {}}"
            ++ newline)%string] |}).
Proof.
  split.
  - apply (proj1 (log_interaction_propagates SampleEnv string string
                    sample_makedirs sample_utcnow sample_open sample_write
                    sample_close sample_json_dumps
                    "orchestrator_agent" "TellTimeAgent" "{}" "send"
                    {| writable := false; log_lines := [] |})).
    reflexivity.
  - pose proof (proj2 (log_interaction_propagates SampleEnv string string
                    sample_makedirs sample_utcnow sample_open sample_write
                    sample_close sample_json_dumps
                    "orchestrator_agent" "TellTimeAgent" "{}" "send"
                    {| writable := true; log_lines := [] |})
                  {| writable := true; log_lines := [] |}
                  "2025-06-01T12:00:00"
                  {| writable := true; log_lines := [] |} eq_refl eq_refl)
      as [_ Hopen].
    destruct (Hopen LOG_FILE {| writable := true; log_lines := [] |} eq_refl)
      as [_ Hdump].
    destruct (Hdump _ eq_refl) as [_ Hwrite].
    apply (Hwrite _ _ eq_refl eq_refl).
Defined.

(** C7 as stated fails: where the working directory cannot be written, the
    directory creation raises and [log_interaction] raises with it. *)
Lemma log_interaction_raises_counterexample :
  ~ (exists env',
        log_interaction SampleEnv string string sample_makedirs sample_utcnow
          sample_open sample_write sample_close sample_json_dumps
          "orchestrator_agent" "TellTimeAgent" "{}" "send"
          {| writable := false; log_lines := [] |} = (Ok tt, env')).
Proof.
  intros [env' H]. vm_compute in H. discriminate H.
Qed.

(** ** Routing: the connector dictionary and _delegate_task *)

Lemma dict_get_set (V : Type) (k k' : string) (v : V) (d : dict V) :
  dict_get k (dict_set k' v d) =
    if String.eqb k k' then Some v else dict_get k d.
Proof.
  induction d as [|[k0 v0] d IH]; simpl.
  - destruct (String.eqb k k'); reflexivity.
  - destruct (String.eqb k' k0) eqn:E0; simpl.
    + apply String.eqb_eq in E0 as <-.
      destruct (String.eqb k k'); reflexivity.
    + destruct (String.eqb k k0) eqn:E1.
      * apply String.eqb_eq in E1 as <-.
        rewrite String.eqb_sym, E0. reflexivity.
      * exact IH.
Qed.

Lemma connectors_fold (n : string) (cards : list AgentCard.t) :
  forall acc : dict AgentConnector.t,
    dict_get n
      (foldl (fun d card =>
                dict_set (AgentCard.name card)
                  (AgentConnector.mk (AgentCard.name card) (AgentCard.url card)
                     "orchestrator_agent") d) acc cards) =
    match last_named n cards with
    | Some c => Some (connector_of c)
    | None => dict_get n acc
    end.
Proof.
  induction cards as [|c cs IH]; intros acc; simpl; [reflexivity|].
  rewrite IH. destruct (last_named n cs) as [c'|]; [reflexivity|].
  rewrite dict_get_set, String.eqb_sym.
  destruct (String.eqb (AgentCard.name c) n); reflexivity.
Qed.

(** The connector found under a name is that of the last card so named. *)
Lemma connectors_get (n : string) (cards : list AgentCard.t) :
  dict_get n (connectors cards) = connector_of <$> last_named n cards.
Proof.
  unfold connectors. rewrite connectors_fold.
  destruct (last_named n cards); reflexivity.
Qed.

Lemma last_named_Some (n : string) (cards : list AgentCard.t) (c : AgentCard.t) :
  last_named n cards = Some c -> c ∈ cards /\ AgentCard.name c = n.
Proof.
  induction cards as [|c0 cs IH]; simpl; [discriminate|].
  destruct (last_named n cs) as [c'|].
  - intros [= <-]. destruct (IH eq_refl) as [Hin Hn].
    split; [by apply list_elem_of_further|done].
  - destruct (String.eqb (AgentCard.name c0) n) eqn:E; [|discriminate].
    intros [= <-]. apply String.eqb_eq in E.
    split; [apply list_elem_of_here|done].
Qed.

Lemma last_named_None (n : string) (cards : list AgentCard.t) :
  last_named n cards = None <-> (forall c, c ∈ cards -> AgentCard.name c <> n).
Proof.
  induction cards as [|c0 cs IH]; simpl.
  - split; [|done]. intros _ c Hc. by apply not_elem_of_nil in Hc.
  - destruct (last_named n cs) as [c'|] eqn:Hl.
    + split; [discriminate|]. intros H.
      destruct (last_named_Some _ _ _ Hl) as [Hin Hn].
      exfalso. apply (H c'); [by apply list_elem_of_further|done].
    + destruct (String.eqb (AgentCard.name c0) n) eqn:E.
      * apply String.eqb_eq in E. split; [discriminate|]. intros H.
        exfalso. apply (H c0); [apply list_elem_of_here|done].
      * apply String.eqb_neq in E. split; [|done].
        intros _ c Hc. apply elem_of_cons in Hc as [->|Hc]; [done|].
        by apply (proj1 IH).
Qed.

(** [_delegate_task] resolves the requested name by exact equality with
    the name of a discovered card and by nothing else. *)
Lemma delegate_task_by_exact_name
    (send_task : AgentConnector.t -> string -> string -> outcome Task.t)
    (cards : list AgentCard.t) (agent_name message uuid4 : string)
    (state : dict string) :
  ((forall c, c ∈ cards -> AgentCard.name c <> agent_name) ->
     _delegate_task send_task (connectors cards) agent_name message uuid4 state =
       (Raise (ValueError ("Unknown agent: " ++ agent_name)%string), state)) /\
  (forall c, c ∈ cards -> AgentCard.name c = agent_name ->
     exists card,
       last_named agent_name cards = Some card /\
       card ∈ cards /\ AgentCard.name card = agent_name /\
       dict_get agent_name (connectors cards) = Some (connector_of card) /\
       forall send_task' : AgentConnector.t -> string -> string -> outcome Task.t,
         (forall m s, send_task' (connector_of card) m s
                      = send_task (connector_of card) m s) ->
         _delegate_task send_task' (connectors cards) agent_name message uuid4 state =
         _delegate_task send_task (connectors cards) agent_name message uuid4 state).
Proof.
  split.
  - intros Hnone. apply last_named_None in Hnone.
    unfold _delegate_task. rewrite connectors_get, Hnone. reflexivity.
  - intros c Hin Hname.
    destruct (last_named agent_name cards) as [card|] eqn:Hl.
    + destruct (last_named_Some _ _ _ Hl) as [Hcin Hcn].
      exists card. split; [done|]. split; [done|]. split; [done|].
      assert (Hget : dict_get agent_name (connectors cards) = Some (connector_of card))
        by (by rewrite connectors_get, Hl).
      split; [exact Hget|].
      intros send_task' Hsame. unfold _delegate_task. rewrite Hget.
      unfold bind, lift, get_state, put_state, ret.
      destruct (dict_get "session_id" state) as [sid|] eqn:Hs; simpl.
      * rewrite Hs. by rewrite Hsame.
      * rewrite dict_get_set. simpl. by rewrite Hsame.
    + exfalso. apply (proj1 (last_named_None _ _) Hl c Hin Hname).
Qed.

(** C6 as stated fails: with the cards "TellTimeAgent" and "GreetingAgent"
    the claim has "telltimeagent" and "time" select the first card, while
    [_delegate_task] finds no connector under either name, so not the one
    of the first card, and raises "Unknown agent". *)
Lemma delegate_task_fuzzy_counterexample :
  dict_get "telltimeagent" (connectors sample_cards) = None /\
  dict_get "time" (connectors sample_cards) = None /\
  _delegate_task sample_send_task (connectors sample_cards)
    "telltimeagent" "what time is it?" "uuid-1" [] =
    (Raise (ValueError "Unknown agent: telltimeagent"), []) /\
  _delegate_task sample_send_task (connectors sample_cards)
    "time" "what time is it?" "uuid-1" [] =
    (Raise (ValueError "Unknown agent: time"), []) /\
  dict_get "telltimeagent" (connectors sample_cards) <>
    Some (connector_of tell_time_card) /\
  dict_get "time" (connectors sample_cards) <> Some (connector_of tell_time_card).
Proof.
  repeat (split; [reflexivity|]). split; discriminate.
Qed.

(** * Further properties of the managers *)

(** ** The store invariant *)

Lemma store_ok_init (clock : nat -> datetime) : store_ok (init clock).
Proof.
  split; [apply wf_init|]. split.
  - intros k1 k2 l H. simpl in H. by rewrite lookup_empty in H.
  - intros k l t H. simpl in H. by rewrite lookup_empty in H.
Qed.

Lemma stored_loc_not_fresh (st : InMemoryTaskManager) (k : string) (l : loc) :
  wf st -> tasks st !! k = Some l -> l <> fresh (dom (objects st)).
Proof.
  intros Hwf Hk ->. destruct (wf_live _ _ _ Hwf Hk) as [t Ht].
  by rewrite fresh_object_unused in Ht.
Qed.

Lemma upsert_task_store_ok (st st' : InMemoryTaskManager)
    (params : TaskSendParams.t) (r : outcome loc) :
  store_ok st -> upsert_task params st = (r, st') -> store_ok st'.
Proof.
  intros (Hwf & Hinj & Hid) Hrun.
  split; [by eapply upsert_task_wf|].
  destruct (tasks st !! TaskSendParams.id params) as [l0|] eqn:Hlook.
  - rewrite (upsert_task_append _ _ _ Hlook) in Hrun.
    injection Hrun as _ <-. simpl. split; [exact Hinj|].
    intros k l t Hk Ht. destruct (decide (l0 = l)) as [->|Hne].
    + rewrite lookup_alter_eq in Ht.
      destruct (objects st !! l) as [t0|] eqn:Ht0; [|discriminate].
      injection Ht as <-. simpl. eauto.
    + rewrite lookup_alter_ne in Ht by done. eauto.
  - rewrite (upsert_task_create _ _ Hlook) in Hrun.
    injection Hrun as _ <-. simpl. split.
    + intros k1 k2 l H1 H2.
      destruct (decide (TaskSendParams.id params = k1)) as [E1|N1];
        destruct (decide (TaskSendParams.id params = k2)) as [E2|N2].
      * congruence.
      * rewrite E1, lookup_insert_eq in H1. rewrite lookup_insert_ne in H2 by done.
        injection H1 as <-. by destruct (stored_loc_not_fresh st k2 _ Hwf H2).
      * rewrite E2, lookup_insert_eq in H2. rewrite lookup_insert_ne in H1 by done.
        injection H2 as <-. by destruct (stored_loc_not_fresh st k1 _ Hwf H1).
      * rewrite lookup_insert_ne in H1 by done.
        rewrite lookup_insert_ne in H2 by done. eauto.
    + intros k l t Hk Ht.
      destruct (decide (TaskSendParams.id params = k)) as [E|N].
      * rewrite E, lookup_insert_eq in Hk. injection Hk as <-.
        rewrite lookup_insert_eq in Ht. injection Ht as <-. simpl. done.
      * rewrite lookup_insert_ne in Hk by done.
        pose proof (stored_loc_not_fresh st k l Hwf Hk) as Hl.
        rewrite lookup_insert_ne in Ht by done. eauto.
Qed.

(** A state that differs only by in-place updates keeping the id, and by
    objects no stored id refers to, is as good. *)
Lemma store_ok_objects (st st' : InMemoryTaskManager) :
  tasks st' = tasks st ->
  (forall k l, tasks st !! k = Some l ->
     forall t', objects st' !! l = Some t' ->
       exists t, objects st !! l = Some t /\ Task.id t' = Task.id t) ->
  (forall l, is_Some (objects st !! l) -> is_Some (objects st' !! l)) ->
  store_ok st -> store_ok st'.
Proof.
  intros Htasks Hsame Hlive (Hwf & Hinj & Hid).
  split; [by apply (wf_objects_mono st)|]. rewrite Htasks.
  split; [exact Hinj|].
  intros k l t' Hk Ht'. destruct (Hsame k l Hk t' Ht') as (t & Ht & ->). eauto.
Qed.

Lemma on_get_task_store_ok (st st' : InMemoryTaskManager)
    (request : GetTaskRequest.t) (r : outcome JSONRPCResponse.t) :
  store_ok st -> on_get_task request st = (r, st') -> store_ok st'.
Proof.
  intros Hok Hrun. pose proof Hok as (Hwf & _ & _).
  destruct (tasks st !! TaskQueryParams.id (GetTaskRequest.params request))
    as [l|] eqn:Hl.
  - destruct (wf_live _ _ _ Hwf Hl) as [t Ht].
    destruct (on_get_task_found st request l t Hl Ht)
      as (l' & st1 & Hrun1 & Hfresh & Hcopy & Htasks & Hkeep).
    rewrite Hrun1 in Hrun. injection Hrun as _ <-.
    revert Hrun1.
    unfold on_get_task, bind, tasks_get, model_copy, bind, deref, new_task.
    rewrite Hl, Ht. simpl. rewrite lookup_insert_eq.
    destruct (TaskQueryParams.historyLength (GetTaskRequest.params request));
      simpl; intros [= <- <-]; (apply (store_ok_objects st); [done| |  |done]); simpl.
    + intros k l0 Hk t' Ht'.
      rewrite lookup_alter_ne, lookup_insert_ne in Ht'
        by (intros E; by destruct (stored_loc_not_fresh st k l0 Hwf Hk)).
      eauto.
    + intros l0 Hl0. apply lookup_alter_is_Some, lookup_insert_is_Some'. by right.
    + intros k l0 Hk t' Ht'.
      rewrite lookup_alter_ne, lookup_insert_ne in Ht'
        by (intros E; by destruct (stored_loc_not_fresh st k l0 Hwf Hk)).
      eauto.
    + intros l0 Hl0. apply lookup_alter_is_Some, lookup_insert_is_Some'. by right.
  - revert Hrun. unfold on_get_task, bind, tasks_get. rewrite Hl.
    by intros [= _ <-].
Qed.

Lemma agent_on_send_task_store_ok (invoke : string -> string -> outcome string)
    (st st' : InMemoryTaskManager) (request : SendTaskRequest.t)
    (r : outcome JSONRPCResponse.t) :
  store_ok st ->
  AgentTaskManager.on_send_task invoke request st = (r, st') -> store_ok st'.
Proof.
  intros Hok.
  unfold AgentTaskManager.on_send_task, bind at 1.
  destruct (upsert_task (SendTaskRequest.params request) st) as [[l|e] st1] eqn:Hup;
    pose proof (upsert_task_store_ok _ _ _ _ Hok Hup) as Hok1;
    [|by intros [= _ <-]].
  unfold bind, lift.
  destruct (AgentTaskManager._get_user_query request) as [q|e];
    [|by intros [= _ <-]].
  destruct (invoke q _) as [reply|e]; [|by intros [= _ <-]].
  simpl. intros [= _ <-].
  apply (store_ok_objects st1); [done| | |done]; simpl.
  - intros k l0 Hk t' Ht'.
    destruct (decide (l = l0)) as [->|Hne].
    + rewrite !lookup_alter_eq in Ht'.
      destruct (objects st1 !! l0) as [t0|]; [|discriminate].
      injection Ht' as <-. by exists t0.
    + rewrite !lookup_alter_ne in Ht' by done. eauto.
  - intros l0 Hl0. by apply lookup_alter_is_Some, lookup_alter_is_Some.
Qed.

Lemma after_call_store_ok (invoke : string -> string -> outcome string)
    (c : ManagerCall) (st : InMemoryTaskManager) :
  store_ok st -> store_ok (after_call invoke c st).
Proof.
  intros Hok. destruct c as [params|request|request|request|request]; simpl.
  - eapply upsert_task_store_ok; [exact Hok|apply surjective_pairing].
  - eapply on_get_task_store_ok; [exact Hok|apply surjective_pairing].
  - eapply agent_on_send_task_store_ok; [exact Hok|apply surjective_pairing].
  - eapply (agent_on_send_task_store_ok invoke); [exact Hok|apply surjective_pairing].
  - eapply (agent_on_send_task_store_ok invoke); [exact Hok|apply surjective_pairing].
Qed.

(** X1.  Whatever calls are made on a new manager -- [upsert_task],
    [on_get_task], and [on_send_task] of the tell-time, greeting and
    orchestrator managers, returning or raising -- every stored id refers
    to a live object, no two ids share an object, and each stored task
    carries the id it is stored under. *)
Theorem store_ok_reachable (invoke : string -> string -> outcome string)
    (clock : nat -> datetime) (cs : list ManagerCall) :
  store_ok (after_calls invoke cs (init clock)).
Proof.
  unfold after_calls.
  assert (H : forall st, store_ok st ->
                store_ok (foldl (fun s c => after_call invoke c s) st cs)).
  { induction cs as [|c cs IH]; intros st Hok; simpl; [done|].
    apply IH. by apply after_call_store_ok. }
  apply H, store_ok_init.
Qed.

(** ** Calls on one id leave the other tasks alone *)

Lemma agent_on_send_task_other (invoke : string -> string -> outcome string)
    (st st' : InMemoryTaskManager) (request : SendTaskRequest.t)
    (r : outcome JSONRPCResponse.t) (k : string) :
  store_ok st ->
  k <> TaskSendParams.id (SendTaskRequest.params request) ->
  AgentTaskManager.on_send_task invoke request st = (r, st') ->
  stored_task st' k = stored_task st k.
Proof.
  intros Hok Hne. pose proof Hok as (Hwf & Hinj & _).
  destruct (upsert_task_stored st (SendTaskRequest.params request) Hwf)
    as (l & st1 & t & Hup & Hl & Ht & _).
  pose proof (upsert_task_store_ok _ _ _ _ Hok Hup) as (_ & Hinj1 & _).
  pose proof (upsert_task_other st st1 _ _ k Hwf Hinj Hne Hup) as Hother.
  unfold AgentTaskManager.on_send_task, bind at 1. rewrite Hup.
  unfold bind, lift.
  destruct (AgentTaskManager._get_user_query request) as [q|e];
    [|by intros [= _ <-]].
  destruct (invoke q _) as [reply|e]; [|by intros [= _ <-]].
  simpl. intros [= _ <-]. rewrite <- Hother. unfold stored_task. simpl.
  destruct (tasks st1 !! k) as [l0|] eqn:Hk; [|done].
  rewrite !lookup_alter_ne; [done| |]; intros ->; apply Hne; eauto.
Qed.

Lemma store_ok_st_t1 : store_ok st_t1.
Proof.
  eapply upsert_task_store_ok; [apply (store_ok_init sample_clock)|].
  unfold st_t1. apply surjective_pairing.
Qed.

(** X2.  On a manager state that satisfies the store invariant, neither
    [upsert_task] nor [on_send_task] for one task id changes the task
    stored under any other id, whether the call returns or raises. *)
Theorem calls_leave_other_tasks (invoke : string -> string -> outcome string)
    (st : InMemoryTaskManager) (request : SendTaskRequest.t) (k : string) :
  store_ok st ->
  k <> TaskSendParams.id (SendTaskRequest.params request) ->
  stored_task (snd (upsert_task (SendTaskRequest.params request) st)) k
    = stored_task st k /\
  stored_task (snd (AgentTaskManager.on_send_task invoke request st)) k
    = stored_task st k /\
  stored_task (snd (GreetingTaskManager.on_send_task invoke request st)) k
    = stored_task st k /\
  stored_task (snd (OrchestratorTaskManager.on_send_task invoke request st)) k
    = stored_task st k.
Proof.
  intros Hok Hne. pose proof Hok as (Hwf & Hinj & _).
  split.
  { eapply upsert_task_other; [exact Hwf|exact Hinj|exact Hne|].
    apply surjective_pairing. }
  assert (H : stored_task (snd (AgentTaskManager.on_send_task invoke request st)) k
              = stored_task st k).
  { eapply agent_on_send_task_other; [exact Hok|exact Hne|].
    apply surjective_pairing. }
  split; [exact H|]. split; exact H.
Qed.

Lemma calls_leave_other_tasks_witness :
  stored_task
    (snd (AgentTaskManager.on_send_task (stub_reasoner "hello")
            {| SendTaskRequest.id := Some (IdStr "req-9");
               SendTaskRequest.params := send_params "t2" (text_message user "yo") |}
            st_t1)) "t1"
  = Some {| Task.id := "t1";
            Task.status := {| TaskStatus.state := "submitted";
                              TaskStatus.timestamp := 1000%Z |};
            Task.history := [text_message user "hi"] |}.
Proof.
  rewrite (proj1 (proj2 (calls_leave_other_tasks (stub_reasoner "hello") st_t1
             {| SendTaskRequest.id := Some (IdStr "req-9");
                SendTaskRequest.params := send_params "t2" (text_message user "yo") |}
             "t1"
             store_ok_st_t1 ltac:(discriminate)))).
  reflexivity.
Defined.

(** ** on_get_task reads only *)

(** X3.  [on_get_task] never changes what is stored: the dictionary of
    tasks, every object that existed before the call, the task stored
    under each id and the clock are the same after the call, found or not;
    the copy it answers with is an object that did not exist before. *)
Theorem on_get_task_read_only (st st' : InMemoryTaskManager)
    (request : GetTaskRequest.t) (r : outcome JSONRPCResponse.t) :
  wf st ->
  on_get_task request st = (r, st') ->
  tasks st' = tasks st /\
  now_calls st' = now_calls st /\
  (forall l t, objects st !! l = Some t -> objects st' !! l = Some t) /\
  (forall k, stored_task st' k = stored_task st k) /\
  (forall resp l', r = Ok resp -> JSONRPCResponse.result resp = Some l' ->
     objects st !! l' = None).
Proof.
  intros Hwf Hrun.
  destruct (tasks st !! TaskQueryParams.id (GetTaskRequest.params request))
    as [l|] eqn:Hl.
  - destruct (wf_live _ _ _ Hwf Hl) as [t Ht].
    revert Hrun.
    unfold on_get_task, bind, tasks_get, model_copy, bind, deref, new_task.
    rewrite Hl, Ht. simpl. rewrite lookup_insert_eq.
    pose proof (fresh_object_unused st) as Hfresh.
    assert (Hkeep : forall f l0 t0, objects st !! l0 = Some t0 ->
              alter f (fresh (dom (objects st)))
                (<[fresh (dom (objects st)) := t]> (objects st)) !! l0 = Some t0).
    { intros f l0 t0 H0.
      rewrite lookup_alter_ne, lookup_insert_ne by congruence. done. }
    destruct (TaskQueryParams.historyLength (GetTaskRequest.params request));
      simpl; intros [= <- <-]; simpl;
      (split; [done|]); (split; [done|]); (split; [by auto|]);
      (split; [|by intros resp l' [= <-] [= <-]]);
      intros k; unfold stored_task; simpl;
      (destruct (tasks st !! k) as [l0|] eqn:Hk; [|done]);
      destruct (wf_live _ _ _ Hwf Hk) as [t0 Ht0];
      rewrite Ht0; by apply Hkeep.
  - revert Hrun. unfold on_get_task, bind, tasks_get. rewrite Hl.
    intros [= <- <-]. repeat split; try done.
Qed.

Lemma on_get_task_read_only_witness :
  stored_task (snd (on_get_task get_t1_request st_t1)) "t1" = stored_task st_t1 "t1" /\
  tasks (snd (on_get_task get_t1_request st_t1)) = tasks st_t1.
Proof.
  destruct (on_get_task_read_only st_t1 _ get_t1_request _ wf_st_t1
              (surjective_pairing _)) as (Ht & _ & _ & Hs & _).
  split; [apply Hs|exact Ht].
Defined.

(** ** The window of history that on_get_task copies *)

Lemma slice_from_pos (A : Type) (n : Z) (l : list A) :
  (0 < n)%Z -> slice_from n l = drop (Z.to_nat n) l.
Proof.
  intros Hn. unfold slice_from.
  destruct (Z.ltb_spec n 0) as [?|_]; [lia|].
  destruct (Z.le_ge_cases n (Z.of_nat (length l))) as [Hle|Hge].
  - by rewrite Z.min_l.
  - rewrite Z.min_r, Nat2Z.id by done.
    rewrite !drop_ge; [done|lia|lia].
Qed.

(** X4.  For a stored task, [on_get_task] answers with a copy that has the
    id and the status of the stored task; its history is the last
    [min n L] messages when [historyLength] is a positive [n], and the
    whole stored history when [historyLength] is absent. *)
Theorem on_get_task_copy_window (st : InMemoryTaskManager)
    (request : GetTaskRequest.t) (l : loc) (t : Task.t) :
  tasks st !! TaskQueryParams.id (GetTaskRequest.params request) = Some l ->
  objects st !! l = Some t ->
  exists l' st' t',
    on_get_task request st =
      (Ok {| JSONRPCResponse.id := GetTaskRequest.id request;
             JSONRPCResponse.result := Some l';
             JSONRPCResponse.error := None |}, st') /\
    l' <> l /\
    objects st' !! l' = Some t' /\
    Task.id t' = Task.id t /\
    Task.status t' = Task.status t /\
    (TaskQueryParams.historyLength (GetTaskRequest.params request) = None ->
       Task.history t' = Task.history t) /\
    (forall n : Z,
       TaskQueryParams.historyLength (GetTaskRequest.params request) = Some n ->
       (0 < n)%Z ->
       Task.history t' =
         last_n (Z.to_nat n `min` length (Task.history t)) (Task.history t) /\
       length (Task.history t') = Z.to_nat n `min` length (Task.history t)).
Proof.
  intros Hl Ht.
  destruct (on_get_task_found st request l t Hl Ht)
    as (l' & st' & Hrun & Hfresh & Hc & _).
  eexists l', st', _. split; [exact Hrun|].
  split; [congruence|]. split; [exact Hc|]. simpl.
  split; [done|]. split; [done|]. split.
  - by intros ->.
  - intros n -> Hn. rewrite slice_from_neg by done.
    split; [done|]. rewrite last_n_length. lia.
Qed.

Lemma on_get_task_copy_window_witness :
  exists l' st' t',
    on_get_task
      {| GetTaskRequest.id := Some (IdStr "req-4");
         GetTaskRequest.params :=
           {| TaskQueryParams.id := "t1"; TaskQueryParams.metadata := None;
              TaskQueryParams.historyLength := Some 1%Z |} |} st_t1_twice =
      (Ok {| JSONRPCResponse.id := Some (IdStr "req-4");
             JSONRPCResponse.result := Some l';
             JSONRPCResponse.error := None |}, st') /\
    objects st' !! l' = Some t' /\
    Task.history t' = [text_message user "again"].
Proof.
  destruct (on_get_task_copy_window st_t1_twice
      {| GetTaskRequest.id := Some (IdStr "req-4");
         GetTaskRequest.params :=
           {| TaskQueryParams.id := "t1"; TaskQueryParams.metadata := None;
              TaskQueryParams.historyLength := Some 1%Z |} |}
      1%positive
      {| Task.id := "t1";
         Task.status := {| TaskStatus.state := "submitted";
                           TaskStatus.timestamp := 1000%Z |};
         Task.history := [text_message user "hi"; text_message user "again"] |}
      eq_refl eq_refl)
    as (l' & st' & t' & Hrun & _ & Hc & _ & _ & _ & Hn).
  exists l', st', t'. split; [exact Hrun|]. split; [exact Hc|].
  destruct (Hn 1%Z eq_refl ltac:(lia)) as [-> _]. reflexivity.
Defined.

(** X5.  A negative [historyLength] is not rejected: for [historyLength =
    n < 0] the slice is [history[-n:]] with a positive start, so the copy
    holds the stored history without its first [-n] messages (nothing at
    all when [-n] reaches the length). *)
Theorem on_get_task_negative_length (st : InMemoryTaskManager)
    (request : GetTaskRequest.t) (l : loc) (t : Task.t) (n : Z) :
  tasks st !! TaskQueryParams.id (GetTaskRequest.params request) = Some l ->
  objects st !! l = Some t ->
  TaskQueryParams.historyLength (GetTaskRequest.params request) = Some n ->
  (n < 0)%Z ->
  exists l' st' t',
    on_get_task request st =
      (Ok {| JSONRPCResponse.id := GetTaskRequest.id request;
             JSONRPCResponse.result := Some l';
             JSONRPCResponse.error := None |}, st') /\
    objects st' !! l' = Some t' /\
    Task.history t' = drop (Z.to_nat (- n)) (Task.history t) /\
    length (Task.history t') = length (Task.history t) - Z.to_nat (- n).
Proof.
  intros Hl Ht Hn Hneg.
  destruct (on_get_task_found st request l t Hl Ht)
    as (l' & st' & Hrun & _ & Hc & _).
  eexists l', st', _. split; [exact Hrun|]. split; [exact Hc|]. simpl.
  rewrite Hn, slice_from_pos by lia. split; [done|]. by rewrite length_drop.
Qed.

Lemma on_get_task_negative_length_witness :
  exists l' st' t',
    on_get_task
      {| GetTaskRequest.id := Some (IdStr "req-5");
         GetTaskRequest.params :=
           {| TaskQueryParams.id := "t1"; TaskQueryParams.metadata := None;
              TaskQueryParams.historyLength := Some (-1)%Z |} |} st_t1_twice =
      (Ok {| JSONRPCResponse.id := Some (IdStr "req-5");
             JSONRPCResponse.result := Some l';
             JSONRPCResponse.error := None |}, st') /\
    objects st' !! l' = Some t' /\
    Task.history t' = [text_message user "again"].
Proof.
  destruct (on_get_task_negative_length st_t1_twice
      {| GetTaskRequest.id := Some (IdStr "req-5");
         GetTaskRequest.params :=
           {| TaskQueryParams.id := "t1"; TaskQueryParams.metadata := None;
              TaskQueryParams.historyLength := Some (-1)%Z |} |}
      1%positive
      {| Task.id := "t1";
         Task.status := {| TaskStatus.state := "submitted";
                           TaskStatus.timestamp := 1000%Z |};
         Task.history := [text_message user "hi"; text_message user "again"] |}
      (-1)%Z eq_refl eq_refl eq_refl ltac:(lia))
    as (l' & st' & t' & Hrun & Hc & Hh & _).
  exists l', st', t'. split; [exact Hrun|]. split; [exact Hc|]. exact Hh.
Defined.

(** ** on_send_task: failures, repeated calls, the other managers *)

Lemma reply_to_Some (invoke : string -> string -> outcome string)
    (request : SendTaskRequest.t) (reply : string) :
  reply_to invoke request = Some reply ->
  exists p ps,
    Message.parts (TaskSendParams.message (SendTaskRequest.params request)) = p :: ps /\
    invoke (TextPart.text p)
      (TaskSendParams.sessionId (SendTaskRequest.params request)) = Ok reply.
Proof.
  unfold reply_to.
  destruct (Message.parts _) as [|p ps]; [discriminate|].
  destruct (invoke _ _) as [r|e] eqn:E; [|discriminate].
  simpl. intros [= <-]. by exists p, ps.
Qed.

Lemma agent_on_send_task_fails
    (invoke : string -> string -> outcome string)
    (st : InMemoryTaskManager) (request : SendTaskRequest.t) :
  let params := SendTaskRequest.params request in
  wf st ->
  reply_to invoke request = None ->
  exists e t,
    AgentTaskManager.on_send_task invoke request st =
      (Raise e, snd (upsert_task params st)) /\
    stored_task (snd (upsert_task params st)) (TaskSendParams.id params) = Some t /\
    Task.history t =
      stored_history st (TaskSendParams.id params) ++ [TaskSendParams.message params] /\
    (stored_task st (TaskSendParams.id params) = None ->
       TaskStatus.state (Task.status t) = "submitted") /\
    (forall t0, stored_task st (TaskSendParams.id params) = Some t0 ->
       Task.status t = Task.status t0).
Proof.
  intros params Hwf Hfail.
  destruct (upsert_task_stored st params Hwf) as (l & st1 & t & Hup & Hl & Ht & Hh).
  assert (Hrun : exists e,
            AgentTaskManager.on_send_task invoke request st = (Raise e, st1)).
  { unfold AgentTaskManager.on_send_task, bind at 1. fold params. rewrite Hup.
    unfold bind, lift, AgentTaskManager._get_user_query.
    unfold reply_to in Hfail. fold params in Hfail |- *.
    destruct (Message.parts (TaskSendParams.message params)) as [|p ps]; [by eauto|].
    destruct (invoke _ _) as [r|e]; [discriminate|by eauto]. }
  destruct Hrun as [e Hrun]. exists e, t. rewrite Hup. simpl.
  split; [exact Hrun|]. split; [unfold stored_task; by rewrite Hl|].
  split; [exact Hh|].
  unfold stored_task.
  destruct (tasks st !! TaskSendParams.id params) as [l0|] eqn:Hl0.
  - rewrite (upsert_task_append _ _ _ Hl0) in Hup. injection Hup as <- <-.
    simpl in Ht. rewrite lookup_alter_eq in Ht.
    split.
    + intros H0. rewrite H0 in Ht. discriminate.
    + intros t0 H0. rewrite H0 in Ht. by injection Ht as <-.
  - rewrite (upsert_task_create _ _ Hl0) in Hup. injection Hup as <- <-.
    simpl in Ht. rewrite lookup_insert_eq in Ht. injection Ht as <-.
    split; [done|discriminate].
Qed.

(** X6.  When the message of a send-task request has no part, or the
    reasoner raises on its text, [on_send_task] raises, and the manager
    state is the one [upsert_task] alone leaves: the message stays at the
    end of the stored history, a task that was new stays in state
    "submitted", and the status of a task that existed is untouched. *)
Theorem on_send_task_failure_keeps_message
    (invoke : string -> string -> outcome string)
    (st : InMemoryTaskManager) (request : SendTaskRequest.t) :
  let params := SendTaskRequest.params request in
  wf st ->
  reply_to invoke request = None ->
  exists e t,
    AgentTaskManager.on_send_task invoke request st =
      (Raise e, snd (upsert_task params st)) /\
    GreetingTaskManager.on_send_task invoke request st =
      (Raise e, snd (upsert_task params st)) /\
    OrchestratorTaskManager.on_send_task invoke request st =
      (Raise e, snd (upsert_task params st)) /\
    stored_task (snd (upsert_task params st)) (TaskSendParams.id params) = Some t /\
    Task.history t =
      stored_history st (TaskSendParams.id params) ++ [TaskSendParams.message params] /\
    (stored_task st (TaskSendParams.id params) = None ->
       TaskStatus.state (Task.status t) = "submitted") /\
    (forall t0, stored_task st (TaskSendParams.id params) = Some t0 ->
       Task.status t = Task.status t0).
Proof.
  intros params Hwf Hfail.
  destruct (agent_on_send_task_fails invoke st request Hwf Hfail)
    as (e & t & Hrun & Hrest).
  exists e, t. split; [exact Hrun|]. split; [exact Hrun|]. split; [exact Hrun|].
  exact Hrest.
Qed.

Lemma on_send_task_failure_keeps_message_witness :
  exists e t,
    AgentTaskManager.on_send_task failing_reasoner hi_send_request (init sample_clock) =
      (Raise e,
       snd (upsert_task (SendTaskRequest.params hi_send_request) (init sample_clock))) /\
    stored_task
      (snd (upsert_task (SendTaskRequest.params hi_send_request) (init sample_clock)))
      "t1" = Some t /\
    Task.history t = [text_message user "hi"] /\
    TaskStatus.state (Task.status t) = "submitted".
Proof.
  destruct (on_send_task_failure_keeps_message failing_reasoner (init sample_clock)
              hi_send_request (wf_init _) eq_refl)
    as (e & t & Hrun & _ & _ & Hst & Hh & Hnew & _).
  exists e, t. split; [exact Hrun|]. split; [exact Hst|]. split; [exact Hh|].
  apply Hnew. reflexivity.
Defined.

Lemma send_all_history (invoke : string -> string -> outcome string)
    (task_id : string) (requests : list SendTaskRequest.t) (replies : list string) :
  Forall2 (fun r reply => reply_to invoke r = Some reply) requests replies ->
  Forall (fun r => TaskSendParams.id (SendTaskRequest.params r) = task_id) requests ->
  forall st, wf st ->
    exists st',
      send_all invoke requests st = (Ok tt, st') /\ wf st' /\
      stored_history st' task_id =
        stored_history st task_id ++ concat (zip_with exchange requests replies) /\
      (requests <> [] ->
         exists t, stored_task st' task_id = Some t /\
                   TaskStatus.state (Task.status t) = "completed").
Proof.
  induction 1 as [|r reply requests replies Hr Hrest IH]; intros Hids st Hwf.
  - exists st. simpl. rewrite app_nil_r. done.
  - apply Forall_cons in Hids as [Hid Hids].
    destruct (reply_to_Some _ _ _ Hr) as (p & ps & Hparts & Hinv).
    destruct (agent_on_send_task_completes invoke st r p ps reply Hwf Hparts Hinv)
      as (l & st1 & t & Hrun & Hl & Ht & Hs & Hh).
    assert (Hwf1 : wf st1) by (eapply agent_on_send_task_wf; eauto).
    destruct (IH Hids st1 Hwf1) as (st' & Hall & Hwf' & Hh' & Hlast).
    rewrite Hid in Hl, Hh.
    assert (Hst1 : stored_task st1 task_id = Some t)
      by (unfold stored_task; by rewrite Hl).
    exists st'. simpl. unfold bind at 1. rewrite Hrun.
    split; [exact Hall|]. split; [exact Hwf'|]. split.
    + rewrite Hh'. unfold stored_history at 1. rewrite Hst1, Hh.
      unfold exchange. by rewrite <- app_assoc.
    + intros _. destruct requests as [|r' requests'].
      * simpl in Hall. injection Hall as <-. by exists t.
      * apply Hlast. done.
Qed.

(** X7.  Send-task calls made one after the other for one task id, each
    with a first text part the reasoner answers: all of them return, the
    task ends in state "completed", and its history is the one stored
    before followed, call by call, by the request's message and the agent
    message with the reply. *)
Theorem send_all_alternates (invoke : string -> string -> outcome string)
    (st : InMemoryTaskManager) (task_id : string)
    (requests : list SendTaskRequest.t) (replies : list string) :
  wf st ->
  requests <> [] ->
  Forall (fun r => TaskSendParams.id (SendTaskRequest.params r) = task_id) requests ->
  Forall2 (fun r reply => reply_to invoke r = Some reply) requests replies ->
  exists st' t,
    send_all invoke requests st = (Ok tt, st') /\
    stored_task st' task_id = Some t /\
    TaskStatus.state (Task.status t) = "completed" /\
    Task.history t =
      stored_history st task_id ++ concat (zip_with exchange requests replies) /\
    length (Task.history t) =
      length (stored_history st task_id) + 2 * length requests.
Proof.
  intros Hwf Hne Hids Hreplies.
  destruct (send_all_history invoke task_id requests replies Hreplies Hids st Hwf)
    as (st' & Hrun & _ & Hh & Hlast).
  destruct (Hlast Hne) as (t & Ht & Hs).
  exists st', t. split; [exact Hrun|]. split; [exact Ht|]. split; [exact Hs|].
  unfold stored_history at 1 in Hh. rewrite Ht in Hh.
  split; [exact Hh|]. rewrite Hh, length_app. f_equal.
  clear -Hreplies. induction Hreplies as [|r reply rs rps _ _ IH]; [done|].
  simpl. rewrite IH. lia.
Qed.

Lemma send_all_alternates_witness :
  exists st' t,
    send_all (stub_reasoner "hello")
      [hi_send_request;
       {| SendTaskRequest.id := Some (IdStr "req-4");
          SendTaskRequest.params := send_params "t1" (text_message user "again") |}]
      (init sample_clock) = (Ok tt, st') /\
    stored_task st' "t1" = Some t /\
    TaskStatus.state (Task.status t) = "completed" /\
    Task.history t =
      [text_message user "hi"; text_message agent "hello";
       text_message user "again"; text_message agent "hello"] /\
    length (Task.history t) = 4.
Proof.
  apply (send_all_alternates (stub_reasoner "hello") (init sample_clock) "t1"
           [hi_send_request;
            {| SendTaskRequest.id := Some (IdStr "req-4");
               SendTaskRequest.params :=
                 send_params "t1" (text_message user "again") |}]
           ["hello"; "hello"]).
  - apply wf_init.
  - discriminate.
  - repeat constructor.
  - repeat constructor.
Defined.

(** X8.  [OrchestratorTaskManager.on_send_task] completes a task as the
    other managers do: from a well-formed state, for a message with a first
    text part that the orchestrator's [invoke] answers with [r], the
    response wraps the stored task, whose status state is "completed" and
    whose history is the earlier one followed by the message and an agent
    message holding [r]. *)
Theorem orchestrator_on_send_task_completes
    (invoke : string -> string -> outcome string)
    (st : InMemoryTaskManager) (request : SendTaskRequest.t)
    (p : TextPart.t) (ps : list TextPart.t) (r : string) :
  wf st ->
  Message.parts (TaskSendParams.message (SendTaskRequest.params request)) = p :: ps ->
  invoke (TextPart.text p)
    (TaskSendParams.sessionId (SendTaskRequest.params request)) = Ok r ->
  exists l st' t,
    OrchestratorTaskManager.on_send_task invoke request st =
      (Ok {| JSONRPCResponse.id := SendTaskRequest.id request;
             JSONRPCResponse.result := Some l;
             JSONRPCResponse.error := None |}, st') /\
    tasks st' !! TaskSendParams.id (SendTaskRequest.params request) = Some l /\
    objects st' !! l = Some t /\
    wf st' /\
    TaskStatus.state (Task.status t) = "completed" /\
    Task.history t =
      stored_history st (TaskSendParams.id (SendTaskRequest.params request)) ++
      exchange request r.
Proof.
  intros Hwf Hparts Hinv.
  destruct (agent_on_send_task_completes invoke st request p ps r Hwf Hparts Hinv)
    as (l & st' & t & Hrun & Hl & Ht & Hs & Hh).
  exists l, st', t. split; [exact Hrun|]. split; [exact Hl|]. split; [exact Ht|].
  split; [by eapply agent_on_send_task_wf|]. split; [exact Hs|exact Hh].
Qed.

Lemma orchestrator_on_send_task_completes_witness :
  exists l st' t,
    OrchestratorTaskManager.on_send_task (stub_reasoner "It is noon.")
      hi_send_request st_t1 =
      (Ok {| JSONRPCResponse.id := Some (IdStr "req-3");
             JSONRPCResponse.result := Some l;
             JSONRPCResponse.error := None |}, st') /\
    tasks st' !! "t1" = Some l /\
    objects st' !! l = Some t /\
    wf st' /\
    TaskStatus.state (Task.status t) = "completed" /\
    Task.history t =
      [text_message user "hi"; text_message user "hi"; text_message agent "It is noon."].
Proof.
  apply (orchestrator_on_send_task_completes (stub_reasoner "It is noon.") st_t1
           hi_send_request (TextPart.mk "hi") [] "It is noon." wf_st_t1);
    reflexivity.
Defined.

(** X9.  The greeting manager with the greeting agent of the repository:
    a send-task request whose message has at least one part always
    completes, and the agent message appended to the history is "Hello
    Vishesh, how can I help you today?" whatever the user wrote and
    whatever the session; with no part the call raises [IndexError]. *)
Theorem greeting_reply_is_constant (st : InMemoryTaskManager)
    (request : SendTaskRequest.t) :
  wf st ->
  (Message.parts (TaskSendParams.message (SendTaskRequest.params request)) <> [] ->
   exists l st' t,
     GreetingTaskManager.on_send_task GreetingAgent.invoke request st =
       (Ok {| JSONRPCResponse.id := SendTaskRequest.id request;
              JSONRPCResponse.result := Some l;
              JSONRPCResponse.error := None |}, st') /\
     objects st' !! l = Some t /\
     TaskStatus.state (Task.status t) = "completed" /\
     Task.history t =
       stored_history st (TaskSendParams.id (SendTaskRequest.params request)) ++
       [TaskSendParams.message (SendTaskRequest.params request);
        text_message agent "Hello Vishesh, how can I help you today?"]) /\
  (Message.parts (TaskSendParams.message (SendTaskRequest.params request)) = [] ->
   fst (GreetingTaskManager.on_send_task GreetingAgent.invoke request st) =
     Raise (IndexError "list index out of range")).
Proof.
  intros Hwf. split.
  - intros Hne.
    destruct (Message.parts (TaskSendParams.message (SendTaskRequest.params request)))
      as [|p ps] eqn:Hparts; [done|].
    destruct (agent_on_send_task_completes GreetingAgent.invoke st request p ps
                "Hello Vishesh, how can I help you today?" Hwf Hparts eq_refl)
      as (l & st' & t & Hrun & _ & Ht & Hs & Hh).
    exists l, st', t. split; [exact Hrun|]. done.
  - intros Hnil.
    destruct (upsert_task_stored st (SendTaskRequest.params request) Hwf)
      as (l & st1 & t & Hup & _).
    unfold GreetingTaskManager.on_send_task, bind at 1. rewrite Hup.
    unfold bind, lift, GreetingTaskManager._get_user_text. by rewrite Hnil.
Qed.

Lemma greeting_reply_is_constant_witness :
  exists l st' t,
    GreetingTaskManager.on_send_task GreetingAgent.invoke
      {| SendTaskRequest.id := Some (IdStr "req-8");
         SendTaskRequest.params :=
           send_params "t3" (text_message user "what is the weather?") |}
      (init sample_clock) =
      (Ok {| JSONRPCResponse.id := Some (IdStr "req-8");
             JSONRPCResponse.result := Some l;
             JSONRPCResponse.error := None |}, st') /\
    objects st' !! l = Some t /\
    TaskStatus.state (Task.status t) = "completed" /\
    Task.history t =
      [text_message user "what is the weather?";
       text_message agent "Hello Vishesh, how can I help you today?"].
Proof.
  apply (proj1 (greeting_reply_is_constant (init sample_clock)
           {| SendTaskRequest.id := Some (IdStr "req-8");
              SendTaskRequest.params :=
                send_params "t3" (text_message user "what is the weather?") |}
           (wf_init _))).
  discriminate.
Defined.

(** X10.  A task completed by [on_send_task] is read back by a following
    [on_get_task] without [historyLength]: the answer is a copy, another
    object than the stored task, with the same id, the status "completed"
    and the same history as the task the send-task response wraps. *)
Theorem send_then_get (invoke : string -> string -> outcome string)
    (st : InMemoryTaskManager) (request : SendTaskRequest.t)
    (query : GetTaskRequest.t) (r : string) :
  wf st ->
  reply_to invoke request = Some r ->
  TaskQueryParams.id (GetTaskRequest.params query) =
    TaskSendParams.id (SendTaskRequest.params request) ->
  TaskQueryParams.historyLength (GetTaskRequest.params query) = None ->
  exists l st1 l' st2 t,
    AgentTaskManager.on_send_task invoke request st =
      (Ok {| JSONRPCResponse.id := SendTaskRequest.id request;
             JSONRPCResponse.result := Some l;
             JSONRPCResponse.error := None |}, st1) /\
    on_get_task query st1 =
      (Ok {| JSONRPCResponse.id := GetTaskRequest.id query;
             JSONRPCResponse.result := Some l';
             JSONRPCResponse.error := None |}, st2) /\
    l' <> l /\
    objects st2 !! l = Some t /\
    objects st2 !! l' = Some t /\
    TaskStatus.state (Task.status t) = "completed" /\
    Task.history t =
      stored_history st (TaskSendParams.id (SendTaskRequest.params request)) ++
      exchange request r.
Proof.
  intros Hwf Hreply Hid Hnone.
  destruct (reply_to_Some _ _ _ Hreply) as (p & ps & Hparts & Hinv).
  destruct (agent_on_send_task_completes invoke st request p ps r Hwf Hparts Hinv)
    as (l & st1 & t & Hrun & Hl & Ht & Hs & Hh).
  rewrite <- Hid in Hl.
  destruct (on_get_task_found st1 query l t Hl Ht)
    as (l' & st2 & Hget & Hfresh & Hcopy & _ & Hkeep).
  exists l, st1, l', st2, t. split; [exact Hrun|]. split; [exact Hget|].
  split; [congruence|]. split; [exact Hkeep|].
  rewrite Hnone in Hcopy. destruct t; simpl in *. done.
Qed.

Lemma send_then_get_witness :
  exists l st1 l' st2 t,
    AgentTaskManager.on_send_task (stub_reasoner "hello") hi_send_request
      (init sample_clock) =
      (Ok {| JSONRPCResponse.id := Some (IdStr "req-3");
             JSONRPCResponse.result := Some l;
             JSONRPCResponse.error := None |}, st1) /\
    on_get_task get_t1_request st1 =
      (Ok {| JSONRPCResponse.id := Some (IdStr "req-1");
             JSONRPCResponse.result := Some l';
             JSONRPCResponse.error := None |}, st2) /\
    l' <> l /\
    objects st2 !! l = Some t /\
    objects st2 !! l' = Some t /\
    TaskStatus.state (Task.status t) = "completed" /\
    Task.history t = [text_message user "hi"; text_message agent "hello"].
Proof.
  apply (send_then_get (stub_reasoner "hello") (init sample_clock)
           hi_send_request get_t1_request "hello" (wf_init _));
    reflexivity.
Defined.

(** X11.  There is no rollback: when a send-task call fails after its
    [upsert_task] (the reasoner raised) and the same request is sent again
    to a reasoner that answers, the request's message is in the history
    twice, followed by the one agent reply. *)
Theorem failed_send_then_retry (invoke1 invoke2 : string -> string -> outcome string)
    (st : InMemoryTaskManager) (request : SendTaskRequest.t) (r : string) :
  wf st ->
  reply_to invoke1 request = None ->
  reply_to invoke2 request = Some r ->
  exists e st1 l st2 t,
    AgentTaskManager.on_send_task invoke1 request st = (Raise e, st1) /\
    AgentTaskManager.on_send_task invoke2 request st1 =
      (Ok {| JSONRPCResponse.id := SendTaskRequest.id request;
             JSONRPCResponse.result := Some l;
             JSONRPCResponse.error := None |}, st2) /\
    objects st2 !! l = Some t /\
    Task.history t =
      stored_history st (TaskSendParams.id (SendTaskRequest.params request)) ++
      [TaskSendParams.message (SendTaskRequest.params request);
       TaskSendParams.message (SendTaskRequest.params request);
       {| Message.role := agent; Message.parts := [TextPart.mk r] |}].
Proof.
  intros Hwf Hfail Hreply.
  destruct (agent_on_send_task_fails invoke1 st request Hwf Hfail)
    as (e & t1 & Hrun1 & Hst1 & Hh1 & _).
  set (st1 := snd (upsert_task (SendTaskRequest.params request) st)) in *.
  assert (Hwf1 : wf st1) by (eapply agent_on_send_task_wf; eauto).
  destruct (reply_to_Some _ _ _ Hreply) as (p & ps & Hparts & Hinv).
  destruct (agent_on_send_task_completes invoke2 st1 request p ps r Hwf1 Hparts Hinv)
    as (l & st2 & t & Hrun2 & _ & Ht & _ & Hh).
  exists e, st1, l, st2, t. split; [exact Hrun1|]. split; [exact Hrun2|].
  split; [exact Ht|]. rewrite Hh. unfold stored_history at 1.
  rewrite Hst1, Hh1. by rewrite <- app_assoc.
Qed.

Lemma failed_send_then_retry_witness :
  exists e st1 l st2 t,
    AgentTaskManager.on_send_task failing_reasoner hi_send_request (init sample_clock)
      = (Raise e, st1) /\
    AgentTaskManager.on_send_task (stub_reasoner "hello") hi_send_request st1 =
      (Ok {| JSONRPCResponse.id := Some (IdStr "req-3");
             JSONRPCResponse.result := Some l;
             JSONRPCResponse.error := None |}, st2) /\
    objects st2 !! l = Some t /\
    Task.history t =
      [text_message user "hi"; text_message user "hi"; text_message agent "hello"].
Proof.
  apply (failed_send_then_retry failing_reasoner (stub_reasoner "hello")
           (init sample_clock) hi_send_request "hello" (wf_init _));
    reflexivity.
Defined.

(** ** The server over a concrete manager *)

Lemma model_dump_state (resp : JSONRPCResponse.t) (st st' : InMemoryTaskManager)
    (r : outcome ResponseBody.t) :
  model_dump resp st = (r, st') -> st' = st.
Proof.
  unfold model_dump, bind, deref, ret.
  destruct (JSONRPCResponse.result resp) as [l|]; [|by intros [= _ <-]].
  destruct (objects st !! l); by intros [= _ <-].
Qed.

(** X12.  A send-task request that reaches [POST /] of a server over the
    tell-time manager, from a well-formed state, with a first text part
    that the reasoner answers: the HTTP answer is a 200 whose body carries
    the request id, no error, and as result the task as it is stored after
    the call -- state "completed", history ending with the message and the
    reply. *)
Theorem handle_request_send_success (Body : Type)
    (validate_python : Body -> outcome A2ARequest) (InternalError_code : Z)
    (invoke : string -> string -> outcome string)
    (request : Request Body) (body : Body) (r : SendTaskRequest.t)
    (reply : string) (st : InMemoryTaskManager) :
  wf st ->
  json Body request = Ok body ->
  validate_python body = Ok (ASendTask r) ->
  reply_to invoke r = Some reply ->
  exists st' t,
    _handle_request Body validate_python InternalError_code
      {| tm_on_send_task := AgentTaskManager.on_send_task invoke;
         tm_on_get_task := on_get_task |} request st =
      (Ok {| JSONResponse.content :=
               {| ResponseBody.id := SendTaskRequest.id r;
                  ResponseBody.result := Some t;
                  ResponseBody.error := None |};
             JSONResponse.status_code := 200 |}, st') /\
    stored_task st' (TaskSendParams.id (SendTaskRequest.params r)) = Some t /\
    TaskStatus.state (Task.status t) = "completed" /\
    Task.history t =
      stored_history st (TaskSendParams.id (SendTaskRequest.params r)) ++
      exchange r reply.
Proof.
  intros Hwf Hjson Hvalid Hreply.
  destruct (reply_to_Some _ _ _ Hreply) as (p & ps & Hparts & Hinv).
  destruct (agent_on_send_task_completes invoke st r p ps reply Hwf Hparts Hinv)
    as (l & st' & t & Hrun & Hl & Ht & Hs & Hh).
  exists st', t. split.
  - eapply handle_request_send_ok; [exact Hjson|exact Hvalid|exact Hrun|].
    unfold model_dump, bind, deref. simpl. by rewrite Ht.
  - unfold stored_task. rewrite Hl. done.
Qed.

Lemma handle_request_send_success_witness :
  exists st' t,
    _handle_request A2ARequest sample_validate (-32603)
      {| tm_on_send_task := AgentTaskManager.on_send_task (stub_reasoner "hello");
         tm_on_get_task := on_get_task |}
      {| json := Ok (ASendTask hi_send_request) |} st_t1 =
      (Ok {| JSONResponse.content :=
               {| ResponseBody.id := Some (IdStr "req-3");
                  ResponseBody.result := Some t;
                  ResponseBody.error := None |};
             JSONResponse.status_code := 200 |}, st') /\
    stored_task st' "t1" = Some t /\
    TaskStatus.state (Task.status t) = "completed" /\
    Task.history t =
      [text_message user "hi"; text_message user "hi"; text_message agent "hello"].
Proof.
  apply (handle_request_send_success A2ARequest sample_validate (-32603)
           (stub_reasoner "hello") {| json := Ok (ASendTask hi_send_request) |}
           (ASendTask hi_send_request) hi_send_request "hello" st_t1 wf_st_t1);
    reflexivity.
Defined.

(** X13.  Whatever arrives at [POST /] of a server over the tell-time
    manager -- a body that does not parse or validate, a get-task request,
    a send-task request that succeeds or fails -- the handler answers
    (it never raises), with status 200 or 400, and the manager state after
    it satisfies the store invariant if the state before did. *)
Theorem handle_request_keeps_store_ok (Body : Type)
    (validate_python : Body -> outcome A2ARequest) (InternalError_code : Z)
    (invoke : string -> string -> outcome string)
    (request : Request Body) (st : InMemoryTaskManager) :
  store_ok st ->
  exists resp st',
    _handle_request Body validate_python InternalError_code
      {| tm_on_send_task := AgentTaskManager.on_send_task invoke;
         tm_on_get_task := on_get_task |} request st = (Ok resp, st') /\
    (JSONResponse.status_code resp = 200%Z \/ JSONResponse.status_code resp = 400%Z) /\
    store_ok st'.
Proof.
  intros Hok.
  unfold _handle_request, _create_response, try_except, bind, lift, ret. simpl.
  destruct (json Body request) as [body|e]; [|by eauto 6].
  destruct (validate_python body) as [[r|r]|e]; [| by eauto 6 | by eauto 6].
  destruct (AgentTaskManager.on_send_task invoke r st) as [[resp|e] st1] eqn:Hrun;
    pose proof (agent_on_send_task_store_ok _ _ _ _ _ Hok Hrun) as Hok1;
    [|by eauto 6].
  destruct (model_dump resp st1) as [[c|e] st2] eqn:Hdump;
    apply model_dump_state in Hdump as ->; by eauto 6.
Qed.

Lemma handle_request_keeps_store_ok_witness :
  exists resp st',
    _handle_request A2ARequest sample_validate (-32603)
      {| tm_on_send_task := AgentTaskManager.on_send_task failing_reasoner;
         tm_on_get_task := on_get_task |}
      {| json := Ok (ASendTask hi_send_request) |} (init sample_clock) = (Ok resp, st') /\
    (JSONResponse.status_code resp = 200%Z \/ JSONResponse.status_code resp = 400%Z) /\
    store_ok st'.
Proof.
  apply (handle_request_keeps_store_ok A2ARequest sample_validate (-32603)
           failing_reasoner {| json := Ok (ASendTask hi_send_request) |}
           (init sample_clock) (store_ok_init _)).
Defined.

(** * Further properties of the orchestrator *)

(** ** The connector dictionary *)

Lemma dict_keys_set (V : Type) (k : string) (v : V) (d : dict V) :
  dict_keys (dict_set k v d) =
    if decide (k ∈ dict_keys d) then dict_keys d else dict_keys d ++ [k].
Proof.
  unfold dict_keys. induction d as [|[k0 v0] d IH]; simpl.
  - destruct (decide (k ∈ [])) as [H|_]; [by apply not_elem_of_nil in H|done].
  - destruct (String.eqb k k0) eqn:E; simpl.
    + apply String.eqb_eq in E as ->.
      destruct (decide (k0 ∈ k0 :: map fst d)) as [_|H]; [done|].
      exfalso. apply H, list_elem_of_here.
    + apply String.eqb_neq in E. rewrite IH.
      destruct (decide (k ∈ map fst d)) as [Hin|Hnin];
        destruct (decide (k ∈ k0 :: map fst d)) as [Hin'|Hnin']; try done.
      * exfalso. apply Hnin'. by apply list_elem_of_further.
      * exfalso. apply elem_of_cons in Hin' as [?|?]; done.
Qed.

Lemma dict_get_keys (V : Type) (k : string) (d : dict V) :
  is_Some (dict_get k d) <-> k ∈ dict_keys d.
Proof.
  induction d as [|[k0 v0] d IH]; simpl.
  - split; [by intros [? ?]|]. intros H. by apply not_elem_of_nil in H.
  - destruct (String.eqb k k0) eqn:E.
    + apply String.eqb_eq in E as ->. split; [|by eauto].
      intros _. apply list_elem_of_here.
    + apply String.eqb_neq in E. rewrite IH. unfold dict_keys.
      rewrite elem_of_cons. split; [by right|]. by intros [?|?].
Qed.

Lemma connectors_keys_fold (cards : list AgentCard.t) :
  forall acc : dict AgentConnector.t,
    NoDup (dict_keys acc) ->
    NoDup (dict_keys
             (foldl (fun d card =>
                       dict_set (AgentCard.name card)
                         (AgentConnector.mk (AgentCard.name card) (AgentCard.url card)
                            "orchestrator_agent") d) acc cards)) /\
    (NoDup (dict_keys acc ++ map AgentCard.name cards) ->
     dict_keys
       (foldl (fun d card =>
                 dict_set (AgentCard.name card)
                   (AgentConnector.mk (AgentCard.name card) (AgentCard.url card)
                      "orchestrator_agent") d) acc cards)
     = dict_keys acc ++ map AgentCard.name cards).
Proof.
  induction cards as [|c cs IH]; intros acc Hnd; simpl.
  - split; [done|]. intros _. by rewrite app_nil_r.
  - set (acc' := dict_set (AgentCard.name c)
                   (AgentConnector.mk (AgentCard.name c) (AgentCard.url c)
                      "orchestrator_agent") acc).
    assert (Hkeys : dict_keys acc' =
              if decide (AgentCard.name c ∈ dict_keys acc) then dict_keys acc
              else dict_keys acc ++ [AgentCard.name c]) by apply dict_keys_set.
    assert (Hnd' : NoDup (dict_keys acc')).
    { rewrite Hkeys. destruct (decide _) as [?|Hnin]; [done|].
      apply NoDup_app. split; [done|]. split; [|apply NoDup_singleton].
      intros x Hx Hx'. apply list_elem_of_singleton in Hx' as ->. done. }
    destruct (IH acc' Hnd') as [Hnd'' Heq]. split; [exact Hnd''|].
    intros Hall. rewrite Heq.
    + rewrite Hkeys. destruct (decide _) as [Hin|_].
      * exfalso. apply NoDup_app in Hall as (_ & Hdisj & _).
        apply (Hdisj _ Hin), list_elem_of_here.
      * by rewrite <- app_assoc.
    + rewrite Hkeys. destruct (decide _) as [Hin|_].
      * exfalso. apply NoDup_app in Hall as (_ & Hdisj & _).
        apply (Hdisj _ Hin), list_elem_of_here.
      * by rewrite <- app_assoc.
Qed.

(** X14.  The names [_list_agents] returns are exactly the names
    [_delegate_task] resolves: a name is listed if and only if some
    discovered card has exactly that name, a listed name has a connector
    carrying that name, and delegation to a name that is not listed raises
    "Unknown agent". *)
Theorem list_agents_are_the_resolvable_names
    (send_task : AgentConnector.t -> string -> string -> outcome Task.t)
    (cards : list AgentCard.t) (n : string) :
  (n ∈ _list_agents (connectors cards) <->
     exists c, c ∈ cards /\ AgentCard.name c = n) /\
  (n ∈ _list_agents (connectors cards) ->
     exists connector,
       dict_get n (connectors cards) = Some connector /\
       AgentConnector.name connector = n) /\
  (n ∉ _list_agents (connectors cards) ->
     forall message uuid4 state,
       _delegate_task send_task (connectors cards) n message uuid4 state =
         (Raise (ValueError ("Unknown agent: " ++ n)%string), state)).
Proof.
  unfold _list_agents.
  assert (Hiff : n ∈ dict_keys (connectors cards) <->
                 exists c, c ∈ cards /\ AgentCard.name c = n).
  { rewrite <- dict_get_keys, connectors_get.
    destruct (last_named n cards) as [c|] eqn:Hl; simpl.
    - destruct (last_named_Some _ _ _ Hl). split; [by eauto|by eauto].
    - split; [by intros [? ?]|]. intros (c & Hc & Hn).
      exfalso. by apply (proj1 (last_named_None _ _) Hl c Hc). }
  split; [exact Hiff|]. split.
  - intros Hin. apply dict_get_keys in Hin as [connector Hget].
    exists connector. split; [done|].
    rewrite connectors_get in Hget.
    destruct (last_named n cards) as [c|] eqn:Hl; [|discriminate].
    simpl in Hget. injection Hget as <-. simpl.
    by destruct (last_named_Some _ _ _ Hl).
  - intros Hnin message uuid4 state. unfold _delegate_task.
    destruct (dict_get n (connectors cards)) as [c|] eqn:Hget; [|done].
    exfalso. apply Hnin, dict_get_keys. by eauto.
Qed.

(** X15.  [_list_agents] never lists a name twice, whatever the cards;
    when the discovered cards have pairwise different names it lists them
    in discovery order. *)
Theorem list_agents_no_duplicates (cards : list AgentCard.t) :
  NoDup (_list_agents (connectors cards)) /\
  (NoDup (map AgentCard.name cards) ->
   _list_agents (connectors cards) = map AgentCard.name cards).
Proof.
  unfold _list_agents, connectors.
  destruct (connectors_keys_fold cards [] (NoDup_nil_2)) as [Hnd Heq].
  split; [exact Hnd|]. intros H. by apply Heq.
Qed.

Lemma list_agents_no_duplicates_witness :
  _list_agents (connectors sample_cards) = ["TellTimeAgent"; "GreetingAgent"] /\
  _list_agents (connectors (sample_cards ++ [tell_time_card])) =
    ["TellTimeAgent"; "GreetingAgent"].
Proof.
  split.
  - apply (proj2 (list_agents_no_duplicates sample_cards)).
    apply NoDup_cons. split; [|apply NoDup_singleton].
    intros H. apply list_elem_of_singleton in H. discriminate H.
  - reflexivity.
Defined.

Lemma list_agents_are_the_resolvable_names_witness :
  "GreetingAgent" ∈ _list_agents (connectors sample_cards) /\
  (exists connector,
      dict_get "GreetingAgent" (connectors sample_cards) = Some connector /\
      AgentConnector.name connector = "GreetingAgent") /\
  _delegate_task sample_send_task (connectors sample_cards)
    "greetingagent" "hello" "uuid-1" [] =
    (Raise (ValueError "Unknown agent: greetingagent"), []).
Proof.
  assert (Hin : "GreetingAgent" ∈ _list_agents (connectors sample_cards)).
  { apply (proj1 (list_agents_are_the_resolvable_names sample_send_task
                    sample_cards "GreetingAgent")).
    exists greeting_card. split; [|reflexivity].
    apply list_elem_of_further, list_elem_of_here. }
  split; [exact Hin|]. split.
  - exact (proj1 (proj2 (list_agents_are_the_resolvable_names sample_send_task
                           sample_cards "GreetingAgent")) Hin).
  - apply (proj2 (proj2 (list_agents_are_the_resolvable_names sample_send_task
                           sample_cards "greetingagent"))).
    intros H.
    apply (proj1 (list_agents_are_the_resolvable_names sample_send_task
                    sample_cards "greetingagent")) in H as (c & Hc & Hn).
    repeat (apply elem_of_cons in Hc as [->|Hc]; [discriminate|]).
    by apply not_elem_of_nil in Hc.
Defined.

(** ** _delegate_task: the session id and the reply *)

(** X16.  When the requested name resolves to a connector, the session id
    of the delegation is the one already in the tool state, or, if there is
    none, the new uuid, which is then kept in the state -- also when the
    child call raises; the child is called with that session id and
    nothing else of the state changes.  So a second delegation reuses the
    session id of the first, whatever new uuid is on offer. *)
Theorem delegate_task_session
    (send_task : AgentConnector.t -> string -> string -> outcome Task.t)
    (self_connectors : dict AgentConnector.t) (connector : AgentConnector.t)
    (agent_name message uuid4 : string) (state : dict string) :
  dict_get agent_name self_connectors = Some connector ->
  let session_id := default uuid4 (dict_get "session_id" state) in
  let state' := snd (_delegate_task send_task self_connectors agent_name message
                       uuid4 state) in
  dict_get "session_id" state' = Some session_id /\
  (forall k, k <> "session_id" -> dict_get k state' = dict_get k state) /\
  (is_Some (dict_get "session_id" state) -> state' = state) /\
  (forall send_task' : AgentConnector.t -> string -> string -> outcome Task.t,
      send_task' connector message session_id = send_task connector message session_id ->
      _delegate_task send_task' self_connectors agent_name message uuid4 state =
      _delegate_task send_task self_connectors agent_name message uuid4 state) /\
  (forall message2 uuid4',
      _delegate_task send_task self_connectors agent_name message2 uuid4' state' =
      _delegate_task send_task self_connectors agent_name message2 uuid4 state').
Proof.
  intros Hget session_id state'. subst session_id state'.
  assert (Hstate : snd (_delegate_task send_task self_connectors agent_name message
                          uuid4 state) =
                   match dict_get "session_id" state with
                   | Some _ => state
                   | None => dict_set "session_id" uuid4 state
                   end).
  { unfold _delegate_task. rewrite Hget.
    unfold bind, lift, get_state, put_state, ret, raise.
    destruct (dict_get "session_id" state) as [sid|] eqn:Hs; simpl.
    - rewrite Hs.
      destruct (send_task connector message sid) as [child|e]; [|done].
      destruct (1 <? length (Task.history child))%nat; [|done].
      destruct (last (Task.history child)) as [m|]; [|done].
      by destruct (Message.parts m).
    - rewrite dict_get_set. simpl.
      destruct (send_task connector message uuid4) as [child|e]; [|done].
      destruct (1 <? length (Task.history child))%nat; [|done].
      destruct (last (Task.history child)) as [m|]; [|done].
      by destruct (Message.parts m). }
  rewrite Hstate. split; [|split; [|split; [|split]]].
  - destruct (dict_get "session_id" state) as [sid|] eqn:Hs; simpl; [done|].
    by rewrite dict_get_set.
  - intros k Hk. destruct (dict_get "session_id" state); [done|].
    rewrite dict_get_set. apply String.eqb_neq in Hk. by rewrite Hk.
  - by intros [sid ->].
  - intros send_task' Hsame. unfold _delegate_task. rewrite Hget.
    unfold bind, lift, get_state, put_state, ret.
    destruct (dict_get "session_id" state) as [sid|] eqn:Hs; simpl in *.
    + rewrite Hs. by rewrite Hsame.
    + rewrite dict_get_set. simpl. by rewrite Hsame.
  - intros message2 uuid4'. unfold _delegate_task. rewrite Hget.
    unfold bind, lift, get_state, put_state, ret.
    destruct (dict_get "session_id" state) as [sid|] eqn:Hs; simpl.
    + by rewrite Hs.
    + rewrite dict_get_set. simpl. by rewrite dict_get_set.
Qed.

Lemma delegate_task_session_witness :
  dict_get "session_id"
    (snd (_delegate_task sample_send_task (connectors sample_cards)
            "TellTimeAgent" "what time is it?" "uuid-1" [])) = Some "uuid-1" /\
  _delegate_task sample_send_task (connectors sample_cards)
    "TellTimeAgent" "and now?" "uuid-2" [("session_id", "uuid-1")] =
    (Ok "It is noon.", [("session_id", "uuid-1")]).
Proof.
  split.
  - apply (delegate_task_session sample_send_task (connectors sample_cards)
             (connector_of tell_time_card) "TellTimeAgent" "what time is it?"
             "uuid-1" [] eq_refl).
  - reflexivity.
Defined.

(** X17.  What [_delegate_task] returns for the child's task: the empty
    string when the child's history has at most one message, the first
    text of the last message when it has more; a last message without
    parts makes the call raise [IndexError], and an exception of the child
    call is raised unchanged. *)
Theorem delegate_task_reply
    (send_task : AgentConnector.t -> string -> string -> outcome Task.t)
    (self_connectors : dict AgentConnector.t) (connector : AgentConnector.t)
    (agent_name message uuid4 : string) (state : dict string) :
  dict_get agent_name self_connectors = Some connector ->
  let session_id := default uuid4 (dict_get "session_id" state) in
  let result := fst (_delegate_task send_task self_connectors agent_name message
                       uuid4 state) in
  (forall e, send_task connector message session_id = Raise e -> result = Raise e) /\
  (forall child, send_task connector message session_id = Ok child ->
     (length (Task.history child) <= 1 -> result = Ok "") /\
     (forall earlier m,
        Task.history child = earlier ++ [m] -> earlier <> [] ->
        (forall p ps, Message.parts m = p :: ps -> result = Ok (TextPart.text p)) /\
        (Message.parts m = [] ->
           result = Raise (IndexError "list index out of range")))).
Proof.
  intros Hget session_id result. subst session_id result.
  assert (Hrun : fst (_delegate_task send_task self_connectors agent_name message
                        uuid4 state) =
                 match send_task connector message
                         (default uuid4 (dict_get "session_id" state)) with
                 | Raise e => Raise e
                 | Ok child =>
                     if (1 <? length (Task.history child))%nat then
                       match last (Task.history child) with
                       | Some m =>
                           match Message.parts m with
                           | p :: _ => Ok (TextPart.text p)
                           | [] => Raise (IndexError "list index out of range")
                           end
                       | None => Raise (IndexError "list index out of range")
                       end
                     else Ok ""
                 end).
  { unfold _delegate_task. rewrite Hget.
    unfold bind, lift, get_state, put_state, ret, raise.
    destruct (dict_get "session_id" state) as [sid|] eqn:Hs; simpl.
    - rewrite Hs.
      destruct (send_task connector message sid) as [child|e]; [|done].
      destruct (1 <? length (Task.history child))%nat; [|done].
      destruct (last (Task.history child)) as [m|]; [|done].
      by destruct (Message.parts m).
    - rewrite dict_get_set. simpl.
      destruct (send_task connector message uuid4) as [child|e]; [|done].
      destruct (1 <? length (Task.history child))%nat; [|done].
      destruct (last (Task.history child)) as [m|]; [|done].
      by destruct (Message.parts m). }
  rewrite Hrun. split.
  - by intros e ->.
  - intros child ->. split.
    + intros Hlen. destruct (Nat.ltb_spec 1 (length (Task.history child))); [lia|done].
    + intros earlier m Hh Hne. rewrite Hh, last_snoc, length_app. simpl.
      destruct earlier as [|m0 earlier]; [done|]. simpl.
      destruct (Nat.ltb_spec 1 (S (length earlier + 1))); [|lia].
      split; [by intros p ps ->|by intros ->].
Qed.

Lemma delegate_task_reply_witness :
  fst (_delegate_task
         (fun _ m _ => Ok {| Task.id := "child-2";
                             Task.status := {| TaskStatus.state := "completed";
                                               TaskStatus.timestamp := 0%Z |};
                             Task.history := [text_message agent "It is noon."] |})
         (connectors sample_cards) "TellTimeAgent" "what time is it?" "uuid-1" [])
  = Ok "".
Proof.
  apply (proj2 (delegate_task_reply
           (fun _ m _ => Ok {| Task.id := "child-2";
                               Task.status := {| TaskStatus.state := "completed";
                                                 TaskStatus.timestamp := 0%Z |};
                               Task.history := [text_message agent "It is noon."] |})
           (connectors sample_cards) (connector_of tell_time_card)
           "TellTimeAgent" "what time is it?" "uuid-1" [] eq_refl) _ eq_refl).
  simpl. lia.
Defined.

(** * The greeting agent's call_agent tool *)

Lemma find_ext_eq (A : Type) (f g : A -> bool) (l : list A) :
  (forall a, f a = g a) -> find f l = find g l.
Proof.
  intros H. induction l as [|a l IH]; simpl; [done|]. by rewrite H, IH.
Qed.

Lemma find_never (A : Type) (l : list A) : find (fun _ => false) l = None.
Proof. induction l; [done|done]. Qed.

(** For a requested name that [str_lower] tells from the empty string, the
    card [call_agent] picks is the one the resolution order of the
    specification picks. *)
Lemma call_agent_matched_order (str_lower : string -> string)
    (cards : list AgentCard.t) (agent_name : string) :
  str_lower agent_name <> str_lower "" ->
  GreetingAgent.matched str_lower cards agent_name =
    spec_resolve str_lower cards agent_name.
Proof.
  intros Hne. unfold GreetingAgent.matched, spec_resolve.
  assert (Hl : String.eqb (str_lower "") (str_lower agent_name) = false).
  { apply String.eqb_neq. congruence. }
  rewrite (find_ext_eq _ _
             (fun c => String.eqb (str_lower (AgentCard.name c))
                         (str_lower agent_name)))
    by (intros c; rewrite Hl; apply orb_false_r).
  destruct (find _ cards) as [c|]; [done|].
  rewrite (find_ext_eq _ (fun c => match card_id c with
                                    | Some i =>
                                        String.eqb (str_lower i) (str_lower agent_name)
                                    | None => false
                                    end) (fun _ => false)) by done.
  by rewrite find_never.
Qed.

(** X19.  With the empty string as requested name [call_agent] picks the
    first discovered card, whatever its name: the comparison with the
    card's missing [id] succeeds for every card. *)
Theorem call_agent_matched_empty_name (str_lower : string -> string)
    (cards : list AgentCard.t) :
  GreetingAgent.matched str_lower cards "" = head cards.
Proof.
  unfold GreetingAgent.matched. destruct cards as [|c cs]; simpl; [done|].
  by rewrite String.eqb_refl, orb_true_r.
Qed.

Lemma call_agent_run (str_lower : string -> string)
    (discovery : M (list string) (list AgentCard.t))
    (send_task : AgentConnector.t -> string -> string -> outcome Task.t)
    (agent_name message : string) (s : GreetingAgent.self)
    (cards : list AgentCard.t) (log' : list string) (card : AgentCard.t) :
  discovery (GreetingAgent.discovery_log s) = (Ok cards, log') ->
  GreetingAgent.matched str_lower cards agent_name = Some card ->
  let fresh_connector :=
    AgentConnector.mk (AgentCard.name card) (AgentCard.url card) "GreetingAgent" in
  let connector :=
    default fresh_connector
      (dict_get (AgentCard.name card) (GreetingAgent.self_connectors s)) in
  GreetingAgent.call_agent str_lower discovery send_task agent_name message s =
    (match send_task connector message "greeting_user" with
     | Raise e => Raise e
     | Ok child =>
         match last (Task.history child) with
         | Some m =>
             match Message.parts m with
             | p :: _ => Ok (TextPart.text p)
             | [] => Ok ""
             end
         | None => Ok ""
         end
     end,
     {| GreetingAgent.self_connectors :=
          match dict_get (AgentCard.name card) (GreetingAgent.self_connectors s) with
          | Some _ => GreetingAgent.self_connectors s
          | None => dict_set (AgentCard.name card) fresh_connector
                      (GreetingAgent.self_connectors s)
          end;
        GreetingAgent.discovery_log := log' |}).
Proof.
  intros Hdisc Hmatch fresh_connector connector. subst fresh_connector connector.
  unfold GreetingAgent.call_agent, GreetingAgent.discover, bind at 1.
  rewrite Hdisc, Hmatch.
  unfold bind, lift, get_state, put_state, ret, raise. simpl.
  destruct (dict_get (AgentCard.name card) (GreetingAgent.self_connectors s))
    as [c|] eqn:Hc; simpl.
  - rewrite Hc. unfold GreetingAgent.user_id.
    destruct (send_task c message "greeting_user") as [child|e]; [|done].
    destruct (last (Task.history child)) as [m|]; [|done].
    by destruct (Message.parts m).
  - rewrite dict_get_set, String.eqb_refl. unfold GreetingAgent.user_id.
    destruct (send_task _ message "greeting_user") as [child|e]; [|done].
    destruct (last (Task.history child)) as [m|]; [|done].
    by destruct (Message.parts m).
Qed.

(** C6 (as the code has it).  The two delegation paths resolve a requested
    name differently.  [OrchestratorAgent._delegate_task] resolves it by
    exact, case-sensitive equality with the name of a discovered card and
    by nothing else: when no card has exactly that name the call raises
    [ValueError "Unknown agent: <name>"], leaves the tool state as it was
    and sends nothing; when some card has it, the connector used is the one
    built from the last card with that name, and only that connector's
    [send_task] bears on the outcome.  [call_agent] of the greeting agent
    resolves it in the order of the claim: for a requested name that
    [str.lower] tells from the empty string (a name that is not empty), the
    card picked is the first whose name equals the request ignoring case,
    failing that the first whose name contains the request ignoring case
    -- cards have no id, so that step selects nothing; when there is no
    such card the call raises [ValueError "Agent '<name>' not found."], and
    otherwise the connector kept under the picked card's name is the one
    used. *)
Theorem delegation_resolution
    (send_task : AgentConnector.t -> string -> string -> outcome Task.t)
    (cards : list AgentCard.t) (agent_name message uuid4 : string)
    (state : dict string)
    (str_lower : string -> string)
    (discovery : M (list string) (list AgentCard.t))
    (s : GreetingAgent.self) (log' : list string) :
  ((forall c, c ∈ cards -> AgentCard.name c <> agent_name) ->
     _delegate_task send_task (connectors cards) agent_name message uuid4 state =
       (Raise (ValueError ("Unknown agent: " ++ agent_name)%string), state)) /\
  (forall c, c ∈ cards -> AgentCard.name c = agent_name ->
     exists card,
       last_named agent_name cards = Some card /\
       card ∈ cards /\ AgentCard.name card = agent_name /\
       dict_get agent_name (connectors cards) = Some (connector_of card) /\
       forall send_task' : AgentConnector.t -> string -> string -> outcome Task.t,
         (forall m sid, send_task' (connector_of card) m sid
                        = send_task (connector_of card) m sid) ->
         _delegate_task send_task' (connectors cards) agent_name message uuid4 state =
         _delegate_task send_task (connectors cards) agent_name message uuid4 state) /\
  (str_lower agent_name <> str_lower "" ->
   discovery (GreetingAgent.discovery_log s) = (Ok cards, log') ->
   GreetingAgent.matched str_lower cards agent_name =
     spec_resolve str_lower cards agent_name /\
   (spec_resolve str_lower cards agent_name = None ->
      GreetingAgent.call_agent str_lower discovery send_task agent_name message s =
        (Raise (ValueError ("Agent '" ++ agent_name ++ "' not found.")%string),
         {| GreetingAgent.self_connectors := GreetingAgent.self_connectors s;
            GreetingAgent.discovery_log := log' |})) /\
   (forall card, spec_resolve str_lower cards agent_name = Some card ->
      let connector :=
        default (AgentConnector.mk (AgentCard.name card) (AgentCard.url card)
                   "GreetingAgent")
          (dict_get (AgentCard.name card) (GreetingAgent.self_connectors s)) in
      dict_get (AgentCard.name card)
        (GreetingAgent.self_connectors
           (snd (GreetingAgent.call_agent str_lower discovery send_task
                   agent_name message s))) = Some connector /\
      forall send_task' : AgentConnector.t -> string -> string -> outcome Task.t,
        (forall m sid, send_task' connector m sid = send_task connector m sid) ->
        GreetingAgent.call_agent str_lower discovery send_task' agent_name message s =
        GreetingAgent.call_agent str_lower discovery send_task agent_name message s)).
Proof.
  destruct (delegate_task_by_exact_name send_task cards agent_name message uuid4 state)
    as [Hnone Hsome].
  split; [exact Hnone|]. split; [exact Hsome|].
  intros Hne Hdisc.
  pose proof (call_agent_matched_order str_lower cards agent_name Hne) as Hm.
  split; [exact Hm|]. rewrite <- Hm. split.
  - intros Hnomatch.
    unfold GreetingAgent.call_agent, GreetingAgent.discover, bind at 1.
    by rewrite Hdisc, Hnomatch.
  - intros card Hmatch connector. subst connector. split.
    + rewrite (call_agent_run str_lower discovery send_task agent_name message s
                 cards log' card Hdisc Hmatch). simpl.
      destruct (dict_get (AgentCard.name card) (GreetingAgent.self_connectors s))
        as [c|] eqn:Hc; simpl; [done|].
      by rewrite dict_get_set, String.eqb_refl.
    + intros send_task' Hsame.
      rewrite (call_agent_run str_lower discovery send_task' agent_name message s
                 cards log' card Hdisc Hmatch).
      rewrite (call_agent_run str_lower discovery send_task agent_name message s
                 cards log' card Hdisc Hmatch).
      by rewrite Hsame.
Qed.

Lemma delegation_resolution_witness :
  (_delegate_task sample_send_task (connectors sample_cards)
     "Weather" "what time is it?" "uuid-1" [] =
     (Raise (ValueError "Unknown agent: Weather"), []) /\
   dict_get "TellTimeAgent" (connectors sample_cards) =
     Some (connector_of tell_time_card) /\
   _delegate_task sample_send_task (connectors sample_cards)
     "TellTimeAgent" "what time is it?" "uuid-1" [] =
     (Ok "It is noon.", [("session_id", "uuid-1")])) /\
  (GreetingAgent.matched sample_str_lower sample_cards "telltimeagent" =
     Some tell_time_card /\
   GreetingAgent.matched sample_str_lower sample_cards "time" = Some tell_time_card /\
   GreetingAgent.matched sample_str_lower sample_cards "Weather" = None /\
   GreetingAgent.call_agent sample_str_lower sample_discovery sample_send_task
     "Weather" "what time is it?"
     {| GreetingAgent.self_connectors := []; GreetingAgent.discovery_log := [] |} =
     (Raise (ValueError "Agent 'Weather' not found."),
      {| GreetingAgent.self_connectors := [];
         GreetingAgent.discovery_log :=
           ["Failed to discover agent at http://localhost:10001/.well-known/agent.json: All connection attempts failed"] |}) /\
   dict_get "TellTimeAgent"
     (GreetingAgent.self_connectors
        (snd (GreetingAgent.call_agent sample_str_lower sample_discovery
                sample_send_task "telltimeagent" "what time is it?"
                {| GreetingAgent.self_connectors := [];
                   GreetingAgent.discovery_log := [] |}))) =
     Some (AgentConnector.mk "TellTimeAgent" "http://localhost:10000/"
             "GreetingAgent")).
Proof.
  pose (s0 := {| GreetingAgent.self_connectors := [];
                 GreetingAgent.discovery_log := [] |}).
  destruct (delegation_resolution sample_send_task sample_cards
              "Weather" "what time is it?" "uuid-1" []
              sample_str_lower sample_discovery s0
              ["Failed to discover agent at http://localhost:10001/.well-known/agent.json: All connection attempts failed"])
    as (Hweather & _ & Hgreet_weather).
  destruct (delegation_resolution sample_send_task sample_cards
              "TellTimeAgent" "what time is it?" "uuid-1" []
              sample_str_lower sample_discovery s0
              ["Failed to discover agent at http://localhost:10001/.well-known/agent.json: All connection attempts failed"])
    as (_ & Hknown & _).
  destruct (delegation_resolution sample_send_task sample_cards
              "telltimeagent" "what time is it?" "uuid-1" []
              sample_str_lower sample_discovery s0
              ["Failed to discover agent at http://localhost:10001/.well-known/agent.json: All connection attempts failed"])
    as (_ & _ & Hgreet_exact).
  destruct (delegation_resolution sample_send_task sample_cards
              "time" "what time is it?" "uuid-1" []
              sample_str_lower sample_discovery s0
              ["Failed to discover agent at http://localhost:10001/.well-known/agent.json: All connection attempts failed"])
    as (_ & _ & Hgreet_sub).
  split; [split; [|split]|].
  - apply Hweather. intros c Hc.
    repeat (apply elem_of_cons in Hc as [->|Hc]; [discriminate|]).
    by apply not_elem_of_nil in Hc.
  - destruct (Hknown tell_time_card (list_elem_of_here _ _) eq_refl)
      as (card & Hlast & _ & _ & Hget & _).
    injection Hlast as <-. exact Hget.
  - reflexivity.
  - destruct (Hgreet_weather ltac:(discriminate) eq_refl) as (Hm1 & Hraise & _).
    destruct (Hgreet_exact ltac:(discriminate) eq_refl) as (Hm2 & _ & Hconn).
    destruct (Hgreet_sub ltac:(discriminate) eq_refl) as (Hm3 & _ & _).
    split; [rewrite Hm2; reflexivity|]. split; [rewrite Hm3; reflexivity|].
    split; [rewrite Hm1; reflexivity|]. split.
    + apply Hraise. reflexivity.
    + destruct (Hconn tell_time_card eq_refl) as [Hget _]. exact Hget.
Defined.

(** X20.  [call_agent] keeps one connector per matched card name: the
    first call for a name stores a connector built from the card, every
    later call for that name uses the stored one and leaves the dictionary
    as it is (also when the rediscovered card carries another url); other
    names are untouched; and when no card matches the call raises
    "Agent '<name>' not found." without touching the dictionary.  Each call
    runs a discovery sweep first. *)
Theorem call_agent_connector_cache (str_lower : string -> string)
    (discovery : M (list string) (list AgentCard.t))
    (send_task : AgentConnector.t -> string -> string -> outcome Task.t)
    (agent_name message : string) (s : GreetingAgent.self)
    (cards : list AgentCard.t) (log' : list string) :
  discovery (GreetingAgent.discovery_log s) = (Ok cards, log') ->
  let run := GreetingAgent.call_agent str_lower discovery send_task
               agent_name message s in
  (GreetingAgent.matched str_lower cards agent_name = None ->
     run = (Raise (ValueError ("Agent '" ++ agent_name ++ "' not found.")%string),
            {| GreetingAgent.self_connectors := GreetingAgent.self_connectors s;
               GreetingAgent.discovery_log := log' |})) /\
  (forall card, GreetingAgent.matched str_lower cards agent_name = Some card ->
     GreetingAgent.discovery_log (snd run) = log' /\
     dict_get (AgentCard.name card) (GreetingAgent.self_connectors (snd run)) =
       Some (default
               (AgentConnector.mk (AgentCard.name card) (AgentCard.url card)
                  "GreetingAgent")
               (dict_get (AgentCard.name card) (GreetingAgent.self_connectors s))) /\
     (forall k, k <> AgentCard.name card ->
        dict_get k (GreetingAgent.self_connectors (snd run)) =
        dict_get k (GreetingAgent.self_connectors s)) /\
     (is_Some (dict_get (AgentCard.name card) (GreetingAgent.self_connectors s)) ->
        GreetingAgent.self_connectors (snd run) = GreetingAgent.self_connectors s)).
Proof.
  intros Hdisc run. subst run. split.
  - intros Hnone.
    unfold GreetingAgent.call_agent, GreetingAgent.discover, bind at 1.
    by rewrite Hdisc, Hnone.
  - intros card Hmatch.
    rewrite (call_agent_run str_lower discovery send_task agent_name message s
               cards log' card Hdisc Hmatch). simpl.
    split; [done|].
    destruct (dict_get (AgentCard.name card) (GreetingAgent.self_connectors s))
      as [c|] eqn:Hc; simpl.
    + split; [done|]. split; [done|done].
    + split; [by rewrite dict_get_set, String.eqb_refl|]. split.
      * intros k Hk. rewrite dict_get_set. apply String.eqb_neq in Hk.
        by rewrite Hk.
      * by intros [? ?].
Qed.

Lemma call_agent_connector_cache_witness :
  GreetingAgent.call_agent sample_str_lower sample_discovery sample_send_task
    "nobody" "hello"
    {| GreetingAgent.self_connectors := []; GreetingAgent.discovery_log := [] |} =
    (Raise (ValueError "Agent 'nobody' not found."),
     {| GreetingAgent.self_connectors := [];
        GreetingAgent.discovery_log :=
          ["Failed to discover agent at http://localhost:10001/.well-known/agent.json: All connection attempts failed"] |}) /\
  dict_get "TellTimeAgent"
    (GreetingAgent.self_connectors
       (snd (GreetingAgent.call_agent sample_str_lower sample_discovery sample_send_task
               "time" "What is the current time?"
               {| GreetingAgent.self_connectors := [];
                  GreetingAgent.discovery_log := [] |}))) =
    Some (AgentConnector.mk "TellTimeAgent" "http://localhost:10000/" "GreetingAgent").
Proof.
  pose proof (call_agent_connector_cache sample_str_lower sample_discovery sample_send_task
                "nobody" "hello"
                {| GreetingAgent.self_connectors := [];
                   GreetingAgent.discovery_log := [] |}
                sample_cards _ eq_refl) as [Hnone _].
  pose proof (call_agent_connector_cache sample_str_lower sample_discovery sample_send_task
                "time" "What is the current time?"
                {| GreetingAgent.self_connectors := [];
                   GreetingAgent.discovery_log := [] |}
                sample_cards _ eq_refl) as [_ Hsome].
  split.
  - apply Hnone. reflexivity.
  - destruct (Hsome tell_time_card eq_refl) as (_ & Hget & _). exact Hget.
Defined.

(** X21.  [call_agent] calls the child with the session id
    "greeting_user" and turns its task into text without ever raising on
    the task's shape: the first text of the last message, and the empty
    string when the history is empty or the last message has no part; an
    exception of the child call is raised unchanged. *)
Theorem call_agent_reply (str_lower : string -> string)
    (discovery : M (list string) (list AgentCard.t))
    (send_task : AgentConnector.t -> string -> string -> outcome Task.t)
    (agent_name message : string) (s : GreetingAgent.self)
    (cards : list AgentCard.t) (log' : list string) (card : AgentCard.t) :
  discovery (GreetingAgent.discovery_log s) = (Ok cards, log') ->
  GreetingAgent.matched str_lower cards agent_name = Some card ->
  let connector :=
    default (AgentConnector.mk (AgentCard.name card) (AgentCard.url card)
               "GreetingAgent")
      (dict_get (AgentCard.name card) (GreetingAgent.self_connectors s)) in
  let result := fst (GreetingAgent.call_agent str_lower discovery send_task
                       agent_name message s) in
  (forall e, send_task connector message "greeting_user" = Raise e ->
     result = Raise e) /\
  (forall child, send_task connector message "greeting_user" = Ok child ->
     (Task.history child = [] -> result = Ok "") /\
     (forall earlier m, Task.history child = earlier ++ [m] ->
        (Message.parts m = [] -> result = Ok "") /\
        (forall p ps, Message.parts m = p :: ps -> result = Ok (TextPart.text p)))).
Proof.
  intros Hdisc Hmatch connector result. subst connector result.
  rewrite (call_agent_run str_lower discovery send_task agent_name message s
             cards log' card Hdisc Hmatch). simpl.
  split.
  - by intros e ->.
  - intros child ->. split.
    + by intros ->.
    + intros earlier m ->. rewrite last_snoc. split.
      * by intros ->.
      * by intros p ps ->.
Qed.

Lemma call_agent_reply_witness :
  fst (GreetingAgent.call_agent sample_str_lower sample_discovery
         (fun _ _ _ => Ok {| Task.id := "child-3";
                             Task.status := {| TaskStatus.state := "completed";
                                               TaskStatus.timestamp := 0%Z |};
                             Task.history := [text_message agent "It is noon."] |})
         "TellTimeAgent" "What is the current time?"
         {| GreetingAgent.self_connectors := []; GreetingAgent.discovery_log := [] |})
  = Ok "It is noon.".
Proof.
  destruct (proj2 (call_agent_reply sample_str_lower sample_discovery
         (fun _ _ _ => Ok {| Task.id := "child-3";
                             Task.status := {| TaskStatus.state := "completed";
                                               TaskStatus.timestamp := 0%Z |};
                             Task.history := [text_message agent "It is noon."] |})
         "TellTimeAgent" "What is the current time?"
         {| GreetingAgent.self_connectors := []; GreetingAgent.discovery_log := [] |}
         sample_cards _ tell_time_card eq_refl eq_refl) _ eq_refl) as [_ Hlast].
  destruct (Hlast [] (text_message agent "It is noon.") eq_refl) as [_ Htext].
  apply (Htext (TextPart.mk "It is noon.") []). reflexivity.
Defined.

(** * Further properties of discovery *)

(** ** The discovery URL *)

Lemma rstrip_app_char (c : ascii) (s : string) :
  rstrip c (s ++ String c EmptyString)%string = rstrip c s.
Proof.
  induction s as [|a s IH]; simpl.
  - by rewrite Ascii.eqb_refl.
  - by rewrite IH.
Qed.

Lemma append_empty_r (s : string) : (s ++ EmptyString)%string = s.
Proof.
  induction s as [|a s IH]; [done|].
  change (String a (s ++ EmptyString)%string = String a s). by rewrite IH.
Qed.

Lemma append_snoc_assoc (s t : string) (c : ascii) :
  ((s ++ String c EmptyString) ++ t)%string = (s ++ String c t)%string.
Proof.
  induction s as [|a s IH]; [done|].
  change (String a ((s ++ String c EmptyString) ++ t)%string
          = String a (s ++ String c t)%string).
  by rewrite IH.
Qed.

Lemma rstrip_app_repeat (c : ascii) (s : string) (k : nat) :
  rstrip c (s ++ repeat_char c k)%string = rstrip c s.
Proof.
  revert s. induction k as [|k IH]; intros s.
  - change (repeat_char c 0) with EmptyString. by rewrite append_empty_r.
  - change (repeat_char c (S k)) with (String c (repeat_char c k)).
    by rewrite <- append_snoc_assoc, IH, rstrip_app_char.
Qed.

Lemma rstrip_decompose (c : ascii) (s : string) :
  exists k, s = (rstrip c s ++ repeat_char c k)%string.
Proof.
  induction s as [|a s [k IH]]; simpl.
  - by exists 0.
  - destruct (rstrip c s) as [|b r] eqn:E.
    + destruct (Ascii.eqb_spec a c) as [->|Hne].
      * exists (S k). simpl in *. by rewrite IH at 1.
      * exists k. simpl in *. by rewrite IH at 1.
    + exists k. simpl in *. by rewrite IH at 1.
Qed.

Lemma append_cons (a : ascii) (s t : string) :
  (String a s ++ t)%string = String a (s ++ t)%string.
Proof. reflexivity. Qed.

Lemma append_snoc_not_empty (t : string) (c : ascii) :
  EmptyString <> (t ++ String c EmptyString)%string.
Proof. destruct t; [discriminate|]. rewrite append_cons. discriminate. Qed.

Lemma rstrip_no_trailing (c : ascii) (s : string) :
  forall t, rstrip c s <> (t ++ String c EmptyString)%string.
Proof.
  induction s as [|a s IH]; intros t; simpl.
  - apply append_snoc_not_empty.
  - destruct (rstrip c s) as [|b r] eqn:E.
    + destruct (Ascii.eqb_spec a c) as [->|Hne].
      * apply append_snoc_not_empty.
      * destruct t as [|a' t].
        -- change (String a EmptyString <> String c EmptyString). congruence.
        -- rewrite append_cons. intros [= _ H].
           by apply (append_snoc_not_empty t c).
    + destruct t as [|a' t].
      * change (String a (String b r) <> String c EmptyString). congruence.
      * rewrite append_cons. intros [= _ H]. by apply (IH t).
Qed.

(** X22.  The discovery URL of a base URL does not depend on how many
    slashes end the base: the base is a stem that does not end with a
    slash followed by some slashes, the URL is that stem followed by
    "/.well-known/agent.json", and adding slashes to the base gives the
    same URL. *)
Theorem well_known_ignores_trailing_slashes (base : string) :
  (forall k, well_known (base ++ repeat_char "/" k)%string = well_known base) /\
  exists stem k,
    base = (stem ++ repeat_char "/" k)%string /\
    (forall t, stem <> (t ++ "/")%string) /\
    well_known base = (stem ++ "/.well-known/agent.json")%string.
Proof.
  split.
  - intros k. unfold well_known. by rewrite rstrip_app_repeat.
  - destruct (rstrip_decompose "/" base) as [k Hk].
    exists (rstrip "/" base), k. split; [exact Hk|].
    split; [apply rstrip_no_trailing|done].
Qed.

(** ** The sweep accounts for every URL *)

(** X23.  A discovery sweep handles each registry entry exactly once:
    the number of cards returned plus the number of warnings the sweep
    logs is the length of the registry (a URL listed twice is fetched
    twice), what was logged before stays in front, and the sweep over two
    registries one after the other returns the cards of the first followed
    by the cards of the second. *)
Theorem list_agent_cards_accounts_for_every_url (HttpResponse Json : Type)
    (client_get : string -> outcome HttpResponse)
    (raise_for_status : HttpResponse -> outcome unit)
    (response_json : HttpResponse -> outcome Json)
    (model_validate : Json -> outcome AgentCard.t)
    (base_urls more_urls : list string) (log : list string) :
  let run := list_agent_cards HttpResponse Json client_get raise_for_status
               response_json model_validate in
  exists cards warnings,
    run base_urls log = (Ok cards, log ++ warnings) /\
    length cards + length warnings = length base_urls /\
    (forall cards2 warnings2,
        run more_urls (log ++ warnings) = (Ok cards2, (log ++ warnings) ++ warnings2) ->
        run (base_urls ++ more_urls) log =
          (Ok (cards ++ cards2), (log ++ warnings) ++ warnings2)).
Proof.
  intros run. subst run. unfold list_agent_cards.
  eexists _, _. split; [apply discover_loop_outcome|]. simpl. split.
  - induction base_urls as [|b bs IH]; simpl; [done|].
    unfold discovery_warning, omap in *.
    destruct (fetch_card _ _ _ _ _ _ b); simpl in *; lia.
  - intros cards2 warnings2. rewrite !discover_loop_outcome. simpl.
    intros [= <- Hw]. apply app_inv_head in Hw as <-.
    by rewrite !omap_app, !app_assoc.
Qed.

Lemma list_agent_cards_accounts_for_every_url_witness :
  exists cards warnings,
    list_agent_cards AgentCard.t AgentCard.t sample_client_get
      (fun _ => Ok tt) Ok Ok
      ["http://localhost:10000/"; "http://localhost:10000"] [] =
      (Ok cards, [] ++ warnings) /\
    cards = [tell_time_card; tell_time_card] /\ warnings = [].
Proof.
  destruct (list_agent_cards_accounts_for_every_url AgentCard.t AgentCard.t
              sample_client_get (fun _ => Ok tt) Ok Ok
              ["http://localhost:10000/"; "http://localhost:10000"] [] [])
    as (cards & warnings & Hrun & _ & _).
  exists cards, warnings. split; [exact Hrun|].
  vm_compute in Hrun. injection Hrun as <- <-. done.
Defined.

(** * Further properties of the send-task path and of the client *)

(** X24.  [upsert_task] and [on_send_task] read the id, the session id
    and the message of the send-task parameters and nothing else: two
    requests that differ only in [historyLength] and [metadata] have the
    same outcome and leave the same state (so the response always wraps
    the whole history, whatever [historyLength] asks for). *)
Theorem on_send_task_ignores_history_length
    (invoke : string -> string -> outcome string) (st : InMemoryTaskManager)
    (request_id : option RequestId) (task_id session_id : string)
    (message : Message.t) (historyLength historyLength' : option Z)
    (metadata metadata' : Metadata) :
  let params := TaskSendParams.mk task_id session_id message historyLength metadata in
  let params' := TaskSendParams.mk task_id session_id message historyLength' metadata' in
  upsert_task params st = upsert_task params' st /\
  AgentTaskManager.on_send_task invoke (SendTaskRequest.mk request_id params) st =
  AgentTaskManager.on_send_task invoke (SendTaskRequest.mk request_id params') st /\
  GreetingTaskManager.on_send_task invoke (SendTaskRequest.mk request_id params) st =
  GreetingTaskManager.on_send_task invoke (SendTaskRequest.mk request_id params') st /\
  OrchestratorTaskManager.on_send_task invoke (SendTaskRequest.mk request_id params) st =
  OrchestratorTaskManager.on_send_task invoke (SendTaskRequest.mk request_id params') st.
Proof.
  intros params params'.
  assert (Hup : upsert_task params st = upsert_task params' st) by reflexivity.
  split; [exact Hup|].
  assert (H : AgentTaskManager.on_send_task invoke
                (SendTaskRequest.mk request_id params) st =
              AgentTaskManager.on_send_task invoke
                (SendTaskRequest.mk request_id params') st).
  { unfold AgentTaskManager.on_send_task, bind, upsert_task, tasks_get. simpl.
    destruct (tasks st !! task_id); reflexivity. }
  split; [exact H|]. split; exact H.
Qed.

(** ** The client in front of the server *)

(** X25.  [A2AClient.get_task] cannot succeed against the server of this
    repository: the server answers every get-task request with status 400,
    so, [raise_for_status] raising on a 400, the call raises
    [A2AClientHTTPError] with status code 400 for every payload that makes
    a valid request, whatever the task manager holds, and the manager state
    is not changed. *)
Theorem client_get_task_always_fails (Json Payload : Type)
    (InternalError_code : Z) (task_manager : TaskManager)
    (raise_for_status : JSONResponse.t -> option string)
    (response_json : JSONResponse.t -> string + Json)
    (Task_of_result : Json -> outcome Task.t)
    (GetTaskRequest_of : Payload -> outcome GetTaskRequest.t)
    (url : string) (payload : Payload) (request : GetTaskRequest.t)
    (st : InMemoryTaskManager) :
  (forall response, JSONResponse.status_code response = 400%Z ->
     is_Some (raise_for_status response)) ->
  GetTaskRequest_of payload = Ok request ->
  exists msg,
    client_get_task InMemoryTaskManager JSONResponse.t Json Payload
      (server_post InternalError_code task_manager)
      raise_for_status JSONResponse.status_code response_json Task_of_result
      GetTaskRequest_of url payload st =
    (Raises (A2AClientHTTPError 400 msg), st).
Proof.
  intros Hstatus Hreq.
  unfold client_get_task, _send_request, server_post. rewrite Hreq.
  rewrite (handle_request_get_task A2ARequest (fun body => Ok body)
             InternalError_code task_manager {| json := Ok (AGetTask request) |}
             st (AGetTask request) request eq_refl eq_refl).
  destruct (Hstatus (failure_response InternalError_code
              (ValueError ("Unsupported A2A method: " ++
                           "<class 'models.request.GetTaskRequest'>")%string))
              eq_refl) as [msg Hmsg].
  exists msg. by rewrite Hmsg.
Qed.

Lemma client_get_task_always_fails_witness :
  client_get_task InMemoryTaskManager JSONResponse.t ResponseBody.t
    TaskQueryParams.t
    (server_post (-32603) sample_manager)
    sample_raise_for_status JSONResponse.status_code
    (fun response => inr (JSONResponse.content response)) body_task
    (fun payload => Ok (GetTaskRequest.mk None payload))
    "http://localhost:10002"
    {| TaskQueryParams.id := "t1"; TaskQueryParams.metadata := None;
       TaskQueryParams.historyLength := None |} st_t1 =
  (Raises (A2AClientHTTPError 400 "Client error '400 Bad Request'"), st_t1).
Proof.
  destruct (client_get_task_always_fails ResponseBody.t TaskQueryParams.t
              (-32603) sample_manager sample_raise_for_status
              (fun response => inr (JSONResponse.content response)) body_task
              (fun payload => Ok (GetTaskRequest.mk None payload))
              "http://localhost:10002"
              {| TaskQueryParams.id := "t1"; TaskQueryParams.metadata := None;
                 TaskQueryParams.historyLength := None |}
              (GetTaskRequest.mk None
                 {| TaskQueryParams.id := "t1"; TaskQueryParams.metadata := None;
                    TaskQueryParams.historyLength := None |})
              st_t1)
    as [msg Hrun].
  - intros response H. unfold sample_raise_for_status. rewrite H. by eexists.
  - reflexivity.
  - rewrite Hrun. vm_compute in Hrun. by injection Hrun as <-.
Defined.

(** X26.  [A2AClient.send_task] in front of a server over the tell-time
    manager: when the payload makes valid parameters, the message has a
    first text part that the reasoner answers, and the 200 response passes
    [raise_for_status] and decodes to its body, the call returns the task
    as the manager stores it after the call -- state "completed", history
    ending with the message and the reply -- under the request id the
    client generated. *)
Theorem client_send_task_returns_completed_task (Payload : Type)
    (InternalError_code : Z) (invoke : string -> string -> outcome string)
    (raise_for_status : JSONResponse.t -> option string)
    (TaskSendParams_of : Payload -> outcome TaskSendParams.t)
    (url uuid : string) (payload : Payload) (params : TaskSendParams.t)
    (reply : string) (st : InMemoryTaskManager) :
  let request := {| SendTaskRequest.id := Some (IdStr uuid);
                    SendTaskRequest.params := params |} in
  wf st ->
  (forall response, JSONResponse.status_code response = 200%Z ->
     raise_for_status response = None) ->
  TaskSendParams_of payload = Ok params ->
  reply_to invoke request = Some reply ->
  exists t st',
    client_send_task InMemoryTaskManager JSONResponse.t ResponseBody.t Payload
      (server_post InternalError_code
         {| tm_on_send_task := AgentTaskManager.on_send_task invoke;
            tm_on_get_task := on_get_task |})
      raise_for_status JSONResponse.status_code
      (fun response => inr (JSONResponse.content response)) body_task
      TaskSendParams_of url payload uuid st = (Returns t, st') /\
    stored_task st' (TaskSendParams.id params) = Some t /\
    TaskStatus.state (Task.status t) = "completed" /\
    Task.history t =
      stored_history st (TaskSendParams.id params) ++ exchange request reply.
Proof.
  intros request Hwf Hstatus Hparams Hreply.
  destruct (reply_to_Some _ _ _ Hreply) as (p & ps & Hparts & Hinv).
  destruct (agent_on_send_task_completes invoke st request p ps reply Hwf Hparts Hinv)
    as (l & st' & t & Hrun & Hl & Ht & Hs & Hh).
  exists t, st'. split.
  - unfold client_send_task, _send_request, server_post. rewrite Hparams.
    fold request.
    rewrite (handle_request_send_ok A2ARequest (fun body => Ok body)
               InternalError_code
               {| tm_on_send_task := AgentTaskManager.on_send_task invoke;
                  tm_on_get_task := on_get_task |}
               {| json := Ok (ASendTask request) |}
               st st' st' (ASendTask request) request _
               {| ResponseBody.id := Some (IdStr uuid);
                  ResponseBody.result := Some t;
                  ResponseBody.error := None |} eq_refl eq_refl Hrun).
    + by rewrite Hstatus.
    + unfold model_dump, bind, deref. simpl. by rewrite Ht.
  - unfold stored_task. simpl in Hl. rewrite Hl. done.
Qed.

Lemma client_send_task_returns_completed_task_witness :
  exists t st',
    client_send_task InMemoryTaskManager JSONResponse.t ResponseBody.t
      TaskSendParams.t
      (server_post (-32603)
         {| tm_on_send_task := AgentTaskManager.on_send_task (stub_reasoner "hello");
            tm_on_get_task := on_get_task |})
      sample_raise_for_status JSONResponse.status_code
      (fun response => inr (JSONResponse.content response)) body_task
      Ok "http://localhost:10002"
      (send_params "t1" (text_message user "hi")) "0f3a" (init sample_clock)
      = (Returns t, st') /\
    stored_task st' "t1" = Some t /\
    TaskStatus.state (Task.status t) = "completed" /\
    Task.history t = [text_message user "hi"; text_message agent "hello"].
Proof.
  apply (client_send_task_returns_completed_task TaskSendParams.t (-32603)
           (stub_reasoner "hello") sample_raise_for_status Ok
           "http://localhost:10002" "0f3a"
           (send_params "t1" (text_message user "hi"))
           (send_params "t1" (text_message user "hi")) "hello"
           (init sample_clock) (wf_init _)).
  - intros response H. unfold sample_raise_for_status. by rewrite H.
  - reflexivity.
  - reflexivity.
Defined.
